(** * Friend requests of the social-network service

    A shallow embedding of [users/views.py] (class [FriendRequestViewSet]):
    the five views [send_request], [accept_request], [reject_request],
    [list_friends] and [list_pending_requests], over an explicit model of
    the two database tables they touch and of the exceptions that the
    Django shortcuts raise and the views' [try]/[except] blocks handle. *)

From stdpp Require Import base decidable option list gmap strings pretty sorting.

Open Scope string_scope.
Open Scope list_scope.
Open Scope Z_scope.

(** ** Data model *)

Inductive Status : Type := pending | accepted | rejected.

#[global] Instance Status_eq_dec : EqDecision Status.
Proof. solve_decision. Defined.

(** [django.contrib.auth.models.User], with the columns the service
    searches and serialises besides the primary key. *)
Module User.
Record t : Type := mk
  { id : Z; email : string; first_name : string; last_name : string }.
End User.

#[global] Instance User_eq_dec : EqDecision User.t.
Proof. solve_decision. Defined.

(** Modelled from the spec: [users/models.py] is not part of the sources.
    A FriendRequest has an identifier, the initiator [from_user] and the
    recipient [to_user] (foreign keys, stored as the users' primary keys;
    the reverse accessors are [sent_requests] for [from_user] and
    [received_requests] for [to_user]), a [status] that is [pending] on
    creation, and a creation timestamp. *)
Module FriendRequest.
Record t : Type := mk
  { id : Z; from_user : Z; to_user : Z; status : Status; created_at : Z }.

(** [friend_request.status = v] on a loaded instance. *)
Definition set_status (v : Status) (r : t) : t :=
  {| id := id r; from_user := from_user r; to_user := to_user r;
     status := v; created_at := created_at r |}.
End FriendRequest.

#[global] Instance FriendRequest_eq_dec : EqDecision FriendRequest.t.
Proof. solve_decision. Defined.

(** The database: both tables in row order, the sequence that hands out
    FriendRequest primary keys, and the wall clock the ORM reads when it
    stamps a new row (the views never set it). *)
Record Store : Type := mkStore
  { users : list User.t;
    friend_requests : list FriendRequest.t;
    next_id : Z;
    clock : Z }.

(** ** Exceptions *)

Inductive Model : Type := UserModel | FriendRequestModel.

#[global] Instance Model_eq_dec : EqDecision Model.
Proof. solve_decision. Defined.

Definition object_name (m : Model) : string :=
  match m with UserModel => "User" | FriendRequestModel => "FriendRequest" end.

(** The exceptions that can travel through the views.  [Http404] is
    [django.http.Http404], a direct subclass of [Exception]; it is not a
    subclass of any model's [DoesNotExist].  [NotFound] is what a
    paginator raises for a page that does not exist. *)
Inductive Exception : Type :=
  | DoesNotExist (m : Model)
  | MultipleObjectsReturned (m : Model) (n : nat)
  | Http404 (m : Model)
  | NotFound (detail : string).

(** What an [except] clause names. *)
Inductive ExceptionClass : Type :=
  | AnyException
  | ModelDoesNotExist (m : Model).

Definition isinstance (e : Exception) (c : ExceptionClass) : bool :=
  match c, e with
  | AnyException, _ => true
  | ModelDoesNotExist m, DoesNotExist m' => bool_decide (m = m')
  | ModelDoesNotExist _, _ => false
  end.

(** [str(e)], with Django's messages. *)
Definition str (e : Exception) : string :=
  match e with
  | DoesNotExist m => object_name m +:+ " matching query does not exist."
  | MultipleObjectsReturned m n =>
      "get() returned more than one " +:+ object_name m +:+ " -- it returned "
      +:+ (if decide (n < 21)%nat then pretty n else "more than 20") +:+ "!"
  | Http404 m => "No " +:+ object_name m +:+ " matches the given query."
  | NotFound detail => detail
  end.

(** ** The monad of a view: database state and exceptions

    A computation runs on a store and ends with a value or a raised
    exception; the store it leaves behind is kept in both cases. *)
Definition M (A : Type) : Type := Store → (Exception + A) * Store.

Definition ret {A} (a : A) : M A := λ s, (inr a, s).

Definition raise {A} (e : Exception) : M A := λ s, (inl e, s).

Definition bind {A B} (m : M A) (k : A → M B) : M B :=
  λ s, match m s with
       | (inl e, s') => (inl e, s')
       | (inr a, s') => k a s'
       end.

Definition get_store : M Store := λ s, (inr s, s).

Definition put_store (s' : Store) : M unit := λ _, (inr tt, s').

(** Lift a pure fallible result. *)
Definition lift {A} (r : Exception + A) : M A := λ s, (r, s).

Notation "'do' x <- c1 ; c2" := (bind c1 (λ x, c2))
  (at level 10, x name, c1 at level 100, c2 at level 200).
Notation "'do' ' p <- c1 ; c2" := (bind c1 (λ x, match x with p => c2 end))
  (at level 10, p pattern, c1 at level 100, c2 at level 200).

(** [try: body except C1: h1 except C2: h2 ...]: the first clause whose
    class the exception is an instance of handles it; without one the
    exception propagates. *)
Fixpoint dispatch {A} (clauses : list (ExceptionClass * (Exception → M A)))
    (e : Exception) : M A :=
  match clauses with
  | [] => raise e
  | (c, h) :: rest => if isinstance e c then h e else dispatch rest e
  end.

Definition try_except {A} (body : M A)
    (clauses : list (ExceptionClass * (Exception → M A))) : M A :=
  λ s, match body s with
       | (inl e, s') => dispatch clauses e s'
       | (inr a, s') => (inr a, s')
       end.

(** ** The ORM calls the views make *)

(** [QuerySet.get]: exactly one row must match. *)
Definition objects_get {A} (m : Model) (P : A → Prop) `{!∀ x, Decision (P x)}
    (rows : list A) : Exception + A :=
  match filter P rows with
  | [] => inl (DoesNotExist m)
  | [x] => inr x
  | l => inl (MultipleObjectsReturned m (length l))
  end.

(** [django.shortcuts.get_object_or_404]: the model's [DoesNotExist] is
    turned into [Http404]; anything else propagates. *)
Definition get_object_or_404 {A} (m : Model) (P : A → Prop)
    `{!∀ x, Decision (P x)} (rows : list A) : Exception + A :=
  match objects_get m P rows with
  | inl (DoesNotExist _) => inl (Http404 m)
  | r => r
  end.

(** [FriendRequest.objects.create(from_user=.., to_user=..)]: a row with
    the next primary key, the default status and the current time. *)
Definition objects_create (from to : Z) : M FriendRequest.t :=
  do s <- get_store;
  let r := FriendRequest.mk (next_id s) from to pending (clock s) in
  do _ <- put_store
       (mkStore (users s) (friend_requests s ++ [r]) (next_id s + 1) (clock s));
  ret r.

(** [FriendRequest.objects.get_or_create(from_user=.., to_user=..)]. *)
Definition get_or_create (from to : Z) : M (FriendRequest.t * bool) :=
  do s <- get_store;
  match objects_get FriendRequestModel
          (λ r, FriendRequest.from_user r = from ∧ FriendRequest.to_user r = to)
          (friend_requests s) with
  | inr r => ret (r, false)
  | inl (DoesNotExist _) => do r <- objects_create from to; ret (r, true)
  | inl e => raise e
  end.

(** [instance.save()] on a loaded row: UPDATE by primary key, INSERT when
    no row was updated. *)
Definition save (r : FriendRequest.t) : M unit :=
  do s <- get_store;
  let same := λ r', FriendRequest.id r' = FriendRequest.id r in
  let rows :=
    if decide (Exists same (friend_requests s))
    then (λ r', if decide (same r') then r else r') <$> friend_requests s
    else friend_requests s ++ [r] in
  put_store (mkStore (users s) rows (next_id s) (clock s)).

#[global] Arguments objects_create : simpl never.
#[global] Arguments get_or_create : simpl never.
#[global] Arguments save : simpl never.

(** ** Requests and responses *)

(** A request that has passed authentication: [request.user] is a row of
    the user table, and [request.data] is a dictionary of integer fields
    ([data.get(k)] is the lookup [data !! k], [None] for a missing key). *)
Record HttpRequest : Type := mkRequest
  { user : User.t; data : gmap string Z }.

(** Response bodies: [{'error': msg}], [{'status': s}], a serialised
    FriendRequest, serialised lists, and the paginator's envelope.
    [users/serializer.py] is not part of the sources: serialised data is
    represented by the records it is made from. *)
Inductive Body : Type :=
  | Error (msg : string)
  | StatusOnly (s : Status)
  | FriendRequestData (r : FriendRequest.t)
  | FriendRequestList (l : list FriendRequest.t)
  | UserList (l : list User.t)
  | Paginated (results : Body).

Record Response : Type := mkResponse { body : Body; status_code : Z }.

Definition HTTP_200_OK : Z := 200.
Definition HTTP_201_CREATED : Z := 201.
Definition HTTP_400_BAD_REQUEST : Z := 400.
Definition HTTP_404_NOT_FOUND : Z := 404.
Definition HTTP_429_TOO_MANY_REQUESTS : Z := 429.
Definition HTTP_500_INTERNAL_SERVER_ERROR : Z := 500.

(** ** Querysets *)

(** [FriendRequest.objects.filter(from_user=u, status='pending')]. *)
Definition pending_outgoing (s : Store) (u : User.t) : list FriendRequest.t :=
  filter (λ r, FriendRequest.from_user r = User.id u
               ∧ FriendRequest.status r = pending) (friend_requests s).

(** [FriendRequest.objects.filter(to_user=u, status='pending')]. *)
Definition pending_requests (s : Store) (u : User.t) : list FriendRequest.t :=
  filter (λ r, FriendRequest.to_user r = User.id u
               ∧ FriendRequest.status r = pending) (friend_requests s).

(** The rows a LEFT OUTER JOIN pairs a user with: its related rows, or
    one all-NULL row when it has none. *)
Definition left_outer_join {A} (related : list A) : list (option A) :=
  match related with
  | [] => [None]
  | _ => Some <$> related
  end.

(** [Q(sent_requests__to_user=u, sent_requests__status='accepted')] on a
    joined row; a NULL row satisfies no condition. *)
Definition Q_sent (u : User.t) (sent : option FriendRequest.t) : Prop :=
  match sent with
  | Some r => FriendRequest.to_user r = User.id u
              ∧ FriendRequest.status r = accepted
  | None => False
  end.

(** [Q(received_requests__from_user=u, received_requests__status='accepted')]. *)
Definition Q_received (u : User.t) (received : option FriendRequest.t) : Prop :=
  match received with
  | Some r => FriendRequest.from_user r = User.id u
              ∧ FriendRequest.status r = accepted
  | None => False
  end.

#[global] Instance Q_sent_dec u sent : Decision (Q_sent u sent).
Proof. destruct sent; simpl; apply _. Defined.

#[global] Instance Q_received_dec u received : Decision (Q_received u received).
Proof. destruct received; simpl; apply _. Defined.

(** [User.objects.filter(Q(sent_requests__...) | Q(received_requests__...))]:
    every user is joined with the requests it sent and with the requests
    it received, and one copy of the user is returned per joined row that
    passes the disjunction. *)
Definition friends (s : Store) (u : User.t) : list User.t :=
  U ← users s;
  sent ← left_outer_join
    (filter (λ r, FriendRequest.from_user r = User.id U) (friend_requests s));
  received ← left_outer_join
    (filter (λ r, FriendRequest.to_user r = User.id U) (friend_requests s));
  if decide (Q_sent u sent ∨ Q_received u received) then [U] else [].

(** ** The views of [FriendRequestViewSet] *)

Definition send_request (request : HttpRequest) : M Response :=
  try_except
    (do s <- get_store;
     if decide (3 ≤ length (pending_outgoing s (user request)))%nat
     then ret (mkResponse (Error "Rate limit exceeded")
                          HTTP_429_TOO_MANY_REQUESTS)
     else
       let to_user_id := data request !! "to_user_id" in
       do to_user <- lift (get_object_or_404 UserModel
                             (λ u, Some (User.id u) = to_user_id) (users s));
       do ' (friend_request, created) <-
            get_or_create (User.id (user request)) (User.id to_user);
       if negb created
       then ret (mkResponse (Error "Friend request already sent")
                            HTTP_400_BAD_REQUEST)
       else ret (mkResponse (FriendRequestData friend_request)
                            HTTP_201_CREATED))
    [ (ModelDoesNotExist UserModel,
       λ _, ret (mkResponse (Error "User with the provided ID does not exist")
                            HTTP_404_NOT_FOUND));
      (AnyException,
       λ e, ret (mkResponse (Error (str e)) HTTP_500_INTERNAL_SERVER_ERROR)) ].

Definition accept_request (request : HttpRequest) : M Response :=
  try_except
    (do s <- get_store;
     let friend_request_id := data request !! "request_id" in
     do friend_request <-
          lift (get_object_or_404 FriendRequestModel
                  (λ r, Some (FriendRequest.id r) = friend_request_id)
                  (friend_requests s));
     do _ <- save (FriendRequest.set_status accepted friend_request);
     ret (mkResponse (StatusOnly accepted) HTTP_200_OK))
    [ (ModelDoesNotExist FriendRequestModel,
       λ _, ret (mkResponse (Error "Friend request not found")
                            HTTP_404_NOT_FOUND));
      (AnyException,
       λ e, ret (mkResponse (Error (str e)) HTTP_500_INTERNAL_SERVER_ERROR)) ].

Definition reject_request (request : HttpRequest) : M Response :=
  try_except
    (do s <- get_store;
     let friend_request_id := data request !! "request_id" in
     do friend_request <-
          lift (get_object_or_404 FriendRequestModel
                  (λ r, Some (FriendRequest.id r) = friend_request_id)
                  (friend_requests s));
     do _ <- save (FriendRequest.set_status rejected friend_request);
     ret (mkResponse (StatusOnly rejected) HTTP_200_OK))
    [ (ModelDoesNotExist FriendRequestModel,
       λ _, ret (mkResponse (Error "Friend request not found")
                            HTTP_404_NOT_FOUND));
      (AnyException,
       λ e, ret (mkResponse (Error (str e)) HTTP_500_INTERNAL_SERVER_ERROR)) ].

Section Pagination.

(** The paginator is configured in the project settings, which are not
    part of the sources: [paginate_queryset] yields [None] without a
    paginator, a page of the queryset with one, and raises for a page
    that does not exist. *)
Variable paginate_queryset :
  ∀ A : Type, HttpRequest → list A → Exception + option (list A).

Definition list_friends (request : HttpRequest) : M Response :=
  try_except
    (do s <- get_store;
     let friends := friends s (user request) in
     do page <- lift (paginate_queryset _ request friends);
     match page with
     | Some page => ret (mkResponse (Paginated (UserList page)) HTTP_200_OK)
     | None => ret (mkResponse (UserList friends) HTTP_200_OK)
     end)
    [ (AnyException,
       λ e, ret (mkResponse (Error (str e)) HTTP_500_INTERNAL_SERVER_ERROR)) ].

Definition list_pending_requests (request : HttpRequest) : M Response :=
  try_except
    (do s <- get_store;
     let pending_requests := pending_requests s (user request) in
     do page <- lift (paginate_queryset _ request pending_requests);
     match page with
     | Some page =>
         ret (mkResponse (Paginated (FriendRequestList page)) HTTP_200_OK)
     | None => ret (mkResponse (FriendRequestList pending_requests) HTTP_200_OK)
     end)
    [ (AnyException,
       λ e, ret (mkResponse (Error (str e)) HTTP_500_INTERNAL_SERVER_ERROR)) ].

End Pagination.

(** ** Well-formed stores

    Primary keys are unique in both tables, the key sequence is ahead of
    every stored request, and there is at most one request per ordered
    pair of users.  The database keeps the first two and [get_or_create]
    the third: all are invariants of the service (see [wf_reachable]). *)
Definition pair_of (r : FriendRequest.t) : Z * Z :=
  (FriendRequest.from_user r, FriendRequest.to_user r).

Record well_formed (s : Store) : Prop := mk_wf
  { wf_users : NoDup (User.id <$> users s);
    wf_ids : NoDup (FriendRequest.id <$> friend_requests s);
    wf_next_id : ∀ r, r ∈ friend_requests s → FriendRequest.id r < next_id s;
    wf_pairs : NoDup (pair_of <$> friend_requests s) }.

(** The store after [create]: one more row, stamped with the next key. *)
Definition new_request (s : Store) (from to : Z) : FriendRequest.t :=
  FriendRequest.mk (next_id s) from to pending (clock s).

Definition created (s : Store) (from to : Z) : Store :=
  mkStore (users s) (friend_requests s ++ [new_request s from to])
          (next_id s + 1) (clock s).

(** The store after [save] of a stored row [r] with its status set. *)
Definition with_status (v : Status) (r : FriendRequest.t) (s : Store) : Store :=
  mkStore (users s)
          ((λ r', if decide (FriendRequest.id r' = FriendRequest.id r)
                  then FriendRequest.set_status v r else r')
             <$> friend_requests s)
          (next_id s) (clock s).

(** One step of the service: a call of one of the five views, or the
    clock moving on between calls. *)
Inductive step (s : Store) : Store → Prop :=
  | step_send request : step s (send_request request s).2
  | step_accept request : step s (accept_request request s).2
  | step_reject request : step s (reject_request request s).2
  | step_list_friends pq request : step s (list_friends pq request s).2
  | step_list_pending pq request :
      step s (list_pending_requests pq request s).2
  | step_clock t :
      step s (mkStore (users s) (friend_requests s) (next_id s) t).

(** A fresh deployment: users with distinct keys and no requests yet. *)
Definition initial (s : Store) : Prop :=
  NoDup (User.id <$> users s) ∧ friend_requests s = [].

(** Replacing the row that has [x]'s key, as an UPDATE by key does. *)
Definition replace_row {A K : Type} `{!EqDecision K} (key : A → K)
    (x x' : A) (l : list A) : list A :=
  (λ y, if decide (key y = key x) then x' else y) <$> l.

(** No stored request is from a user to itself. *)
Definition no_self_request (s : Store) : Prop :=
  ∀ r, r ∈ friend_requests s →
       FriendRequest.from_user r ≠ FriendRequest.to_user r.

(** The response of a list view that hands [queryset] to the paginator
    and gets [page] back: the page in the paginator's envelope, the whole
    serialised queryset without a paginator, 500 when it raised. *)
Definition list_response {A} (serialize : list A → Body) (queryset : list A)
    (page : Exception + option (list A)) : Response :=
  match page with
  | inl e => mkResponse (Error (str e)) HTTP_500_INTERNAL_SERVER_ERROR
  | inr (Some page) => mkResponse (Paginated (serialize page)) HTTP_200_OK
  | inr None => mkResponse (serialize queryset) HTTP_200_OK
  end.

(** A deployment without a paginator. *)
Definition no_paginator :
    ∀ A : Type, HttpRequest → list A → Exception + option (list A) :=
  λ _ _ _, inr None.

(** ** Sample deployment *)

Definition alice : User.t := User.mk 1 "alice@example.com" "Alice" "Adams".
Definition bob : User.t := User.mk 2 "bob@example.com" "Bob" "Brown".
Definition carol : User.t := User.mk 3 "carol@example.com" "Carol" "Clark".
Definition dave : User.t := User.mk 4 "dave@example.com" "Dave" "Dunn".
Definition erin : User.t := User.mk 5 "erin@example.com" "Erin" "Ellis".

Definition fresh_store : Store := mkStore [alice; bob; carol; dave; erin] [] 1 0.

(** A POST by [u] with one field in its body. *)
Definition post (u : User.t) (field : string) (value : Z) : HttpRequest :=
  mkRequest u {[ field := value ]}.

(** Alice has sent requests to Bob, Carol and Dave; all three are pending. *)
Definition busy_store : Store :=
  (send_request (post alice "to_user_id" 4)
     (send_request (post alice "to_user_id" 3)
        (send_request (post alice "to_user_id" 2) fresh_store).2).2).2.

(** Alice has sent a request to Bob. *)
Definition sent_store : Store :=
  (send_request (post alice "to_user_id" 2) fresh_store).2.

(** ** The views of [UserViewSet] *)

(** [icontains] compares without regard to the case of ASCII letters:
    both sides are folded to lower case. *)
Definition lower_ascii (c : Ascii.ascii) : Ascii.ascii :=
  let n := Ascii.N_of_ascii c in
  if ((65 <=? n) && (n <=? 90))%N then Ascii.ascii_of_N (n + 32) else c.

Fixpoint lower (s : string) : string :=
  match s with
  | EmptyString => EmptyString
  | String c s' => String (lower_ascii c) (lower s')
  end.

(** [needle] occurs in [hay] as a contiguous substring (the keyword is
    matched literally: the ORM escapes the wildcard characters). *)
Fixpoint contains (needle hay : string) : bool :=
  String.prefix needle hay
  || match hay with
     | EmptyString => false
     | String _ hay' => contains needle hay'
     end.

(** The lookup [field__icontains=keyword]. *)
Definition icontains (field keyword : string) : bool :=
  contains (lower keyword) (lower field).

(** The permission classes a view can ask for, and their
    [has_permission] on a request whose user is [None] when anonymous. *)
Inductive Permission : Type := AllowAny | IsAuthenticated.

Definition has_permission (p : Permission) (request_user : option User.t) : bool :=
  match p with
  | AllowAny => true
  | IsAuthenticated => bool_decide (is_Some request_user)
  end.

(** [check_permissions]: every permission of the view must grant. *)
Definition check_permissions (ps : list Permission)
    (request_user : option User.t) : bool :=
  forallb (λ p, has_permission p request_user) ps.

Module UserViewSet.
(** A view instance: the rows of its [queryset] attribute (at first
    those of the class attribute, which the class shares between its
    instances), the query parameters of its request, the name of the
    action being run, and the lines it has printed. *)
Record t : Type := mk
  { queryset : list User.t;
    query_params : gmap string string;
    action : option string;
    stdout : list string }.

(** [get_queryset]: prints the keyword, narrows [self.queryset] when the
    keyword is a non-empty string, and returns [self.queryset]. *)
Definition get_queryset (self : t) : list User.t * t :=
  let search_keyword := query_params self !! "search" in
  let out :=
    stdout self ++ ["search_keyword " +:+ default "None" search_keyword] in
  match search_keyword with
  | Some keyword =>
      if decide (keyword ≠ "")
      then
        let filtered :=
          filter (λ u, icontains (User.email u) keyword
                       || icontains (User.first_name u) keyword
                       || icontains (User.last_name u) keyword)
                 (queryset self) in
        (filtered, mk filtered (query_params self) (action self) out)
      else (queryset self,
            mk (queryset self) (query_params self) (action self) out)
  | None => (queryset self,
             mk (queryset self) (query_params self) (action self) out)
  end.

Definition get_permissions (self : t) : list Permission :=
  if decide (action self ∈ [Some "create"; Some "login"])
  then [AllowAny]
  else [IsAuthenticated].
End UserViewSet.

(** ** Further invariants and samples *)

(** [keyword] occurs in [field] when letter case is ignored. *)
Definition occurs (keyword field : string) : Prop :=
  ∃ before after, lower field = before +:+ lower keyword +:+ after.

(** A view instance that carries the search keyword [keyword]. *)
Definition searching (queryset : list User.t) (keyword : string)
    (action : option string) : UserViewSet.t :=
  UserViewSet.mk queryset {[ "search" := keyword ]} action [].

(** No user has more than three pending outgoing requests. *)
Definition within_limit (s : Store) : Prop :=
  ∀ u, (length (pending_outgoing s u) ≤ 3)%nat.

(** How often [U] is listed among the friends of [u]. *)
Definition listed (s : Store) (u U : User.t) : nat :=
  length (filter (λ x, x = U) (friends s u)).

(** Bob's request to Alice is accepted, and Carol and Dave have sent
    requests to Bob. *)
Definition crowded_store : Store :=
  (send_request (post dave "to_user_id" 2)
     (send_request (post carol "to_user_id" 2)
        (accept_request (post alice "request_id" 1)
           (send_request (post bob "to_user_id" 1) fresh_store).2).2).2).2.

(** * Proofs *)

(** ** Facts about keyed tables *)

Section keyed.
Context {A K : Type} (key : A → K).
Context (P : A → Prop) `{!∀ x, Decision (P x)}.

(** A filter that no row passes is empty. *)
Lemma filter_none (l : list A) :
  (∀ y, y ∈ l → ¬ P y) → filter P l = [].
Proof.
  induction l as [|y l IH]; intros Hn; [done|].
  rewrite filter_cons_False; [|apply Hn; left].
  apply IH. intros z Hz. apply Hn. by right.
Qed.

(** In a table with unique keys, a filter that pins the key down
    returns the one row that has it. *)
Lemma filter_unique (l : list A) (x : A) :
  NoDup (key <$> l) → x ∈ l → P x → (∀ y, y ∈ l → P y → key y = key x) →
  filter P l = [x].
Proof.
  induction l as [|y l IH]; intros Hnd Hx HP Hk.
  { by apply elem_of_nil in Hx. }
  rewrite fmap_cons in Hnd. apply NoDup_cons in Hnd as [Hy Hnd].
  apply elem_of_cons in Hx as [->|Hx].
  - rewrite filter_cons_True; [|done]. f_equal.
    apply filter_none. intros z Hz HPz. apply Hy.
    rewrite <- (Hk z); [by apply list_elem_of_fmap_2| by right | done].
  - rewrite filter_cons_False.
    + apply IH; [done..|]. intros z Hz. apply Hk. by right.
    + intros HPy. apply Hy. rewrite (Hk y); [|by left|done].
      by apply list_elem_of_fmap_2.
Qed.
End keyed.

(** [get] finds the row with a given primary key, and only reports a
    missing row when there is none. *)
Lemma objects_get_unique {A K} (key : A → K) (m : Model) (P : A → Prop)
    `{!∀ x, Decision (P x)} (l : list A) (x : A) :
  NoDup (key <$> l) → x ∈ l → P x → (∀ y, y ∈ l → P y → key y = key x) →
  objects_get m P l = inr x.
Proof.
  intros. unfold objects_get. by rewrite (filter_unique key P l x).
Qed.

Lemma objects_get_none {A} (m : Model) (P : A → Prop)
    `{!∀ x, Decision (P x)} (l : list A) :
  (∀ y, y ∈ l → ¬ P y) → objects_get m P l = inl (DoesNotExist m).
Proof. intros. unfold objects_get. by rewrite filter_none. Qed.

(** Whatever [get] returns is a row of the table that passes the filter. *)
Lemma objects_get_inr {A} (m : Model) (P : A → Prop)
    `{!∀ x, Decision (P x)} (l : list A) (x : A) :
  objects_get m P l = inr x → x ∈ l ∧ P x.
Proof.
  unfold objects_get. intros Hget.
  assert (x ∈ filter P l) as Hx.
  { destruct (filter P l) as [|y [|z k]]; simplify_eq. by left. }
  apply list_elem_of_filter in Hx. tauto.
Qed.

Lemma get_object_or_404_inr {A} (m : Model) (P : A → Prop)
    `{!∀ x, Decision (P x)} (l : list A) (x : A) :
  get_object_or_404 m P l = inr x → x ∈ l ∧ P x.
Proof.
  unfold get_object_or_404. intros Hget.
  destruct (objects_get m P l) as [e|y] eqn:Hg.
  - destruct e; simplify_eq.
  - simplify_eq. by eapply objects_get_inr.
Qed.

Lemma get_object_or_404_unique {A K} (key : A → K) (m : Model) (P : A → Prop)
    `{!∀ x, Decision (P x)} (l : list A) (x : A) :
  NoDup (key <$> l) → x ∈ l → P x → (∀ y, y ∈ l → P y → key y = key x) →
  get_object_or_404 m P l = inr x.
Proof.
  intros. unfold get_object_or_404.
  by rewrite (objects_get_unique key m P l x).
Qed.

Lemma get_object_or_404_none {A} (m : Model) (P : A → Prop)
    `{!∀ x, Decision (P x)} (l : list A) :
  (∀ y, y ∈ l → ¬ P y) → get_object_or_404 m P l = inl (Http404 m).
Proof. intros. unfold get_object_or_404. by rewrite objects_get_none. Qed.

(** ** What each view does, case by case *)

Ltac run_view :=
  unfold try_except, bind, get_store, put_store, lift, ret, raise; cbn.

(** At the limit the view answers 429 before it looks at the request data. *)
Lemma send_request_at_limit (s : Store) (request : HttpRequest) :
  (3 ≤ length (pending_outgoing s (user request)))%nat →
  send_request request s
  = (inr (mkResponse (Error "Rate limit exceeded") HTTP_429_TOO_MANY_REQUESTS),
     s).
Proof. intros Hlim. unfold send_request. run_view. by case_decide. Qed.

(** Under the limit, a recipient id that matches no user makes
    [get_object_or_404] raise [Http404]; the [except User.DoesNotExist]
    clause does not apply to it and the catch-all clause answers 500. *)
Lemma send_request_unresolved (s : Store) (request : HttpRequest) :
  (length (pending_outgoing s (user request)) < 3)%nat →
  (∀ u, u ∈ users s → Some (User.id u) ≠ data request !! "to_user_id") →
  send_request request s
  = (inr (mkResponse (Error "No User matches the given query.")
                     HTTP_500_INTERNAL_SERVER_ERROR), s).
Proof.
  intros Hlim Hno. unfold send_request. run_view.
  case_decide; [lia|].
  by rewrite get_object_or_404_none.
Qed.

Lemma send_request_existing (s : Store) (request : HttpRequest)
    (B : User.t) (r : FriendRequest.t) :
  well_formed s →
  (length (pending_outgoing s (user request)) < 3)%nat →
  B ∈ users s → data request !! "to_user_id" = Some (User.id B) →
  r ∈ friend_requests s →
  FriendRequest.from_user r = User.id (user request) →
  FriendRequest.to_user r = User.id B →
  send_request request s
  = (inr (mkResponse (Error "Friend request already sent")
                     HTTP_400_BAD_REQUEST), s).
Proof.
  intros Hwf Hlim HB Hto Hr Hfrom HrB. unfold send_request. run_view.
  case_decide; [lia|].
  rewrite (get_object_or_404_unique User.id _ _ _ B);
    [|apply Hwf|done|by rewrite Hto|intros y _ Hy; rewrite Hto in Hy; congruence].
  simpl. unfold get_or_create. run_view.
  rewrite (objects_get_unique pair_of _ _ _ r);
    [done|apply Hwf|done|done|].
  intros y _ [Hy1 Hy2]. unfold pair_of. congruence.
Qed.

Lemma send_request_created (s : Store) (request : HttpRequest) (B : User.t) :
  well_formed s →
  (length (pending_outgoing s (user request)) < 3)%nat →
  B ∈ users s → data request !! "to_user_id" = Some (User.id B) →
  (∀ r, r ∈ friend_requests s →
        ¬ (FriendRequest.from_user r = User.id (user request)
           ∧ FriendRequest.to_user r = User.id B)) →
  send_request request s
  = (inr (mkResponse
            (FriendRequestData
               (new_request s (User.id (user request)) (User.id B)))
            HTTP_201_CREATED),
     created s (User.id (user request)) (User.id B)).
Proof.
  intros Hwf Hlim HB Hto Hnone. unfold send_request. run_view.
  case_decide; [lia|].
  rewrite (get_object_or_404_unique User.id _ _ _ B);
    [|apply Hwf|done|by rewrite Hto|intros y _ Hy; rewrite Hto in Hy; congruence].
  simpl. unfold get_or_create. run_view.
  by rewrite objects_get_none.
Qed.

(** [save] of a row that [get] has just loaded updates it in place. *)
Lemma save_stored (v : Status) (r : FriendRequest.t) (s : Store) :
  r ∈ friend_requests s →
  save (FriendRequest.set_status v r) s = (inr tt, with_status v r s).
Proof.
  intros Hr. unfold save. run_view.
  case_decide as Hex; [done|].
  exfalso. apply Hex, Exists_exists. by exists r.
Qed.

Ltac status_view_missing :=
  intros Hno; run_view; by rewrite get_object_or_404_none.

Ltac status_view_stored :=
  intros Hwf Hr Hid; run_view;
  rewrite (get_object_or_404_unique FriendRequest.id _ _ _ _
             (wf_ids _ Hwf) Hr);
  [ cbn; by rewrite save_stored
  | by rewrite Hid
  | intros y _ Hy; rewrite Hid in Hy; congruence ].

(** A request id that matches no row: [Http404] again, which the
    [except FriendRequest.DoesNotExist] clause does not catch. *)
Lemma accept_request_unresolved (s : Store) (request : HttpRequest) :
  (∀ r, r ∈ friend_requests s →
        Some (FriendRequest.id r) ≠ data request !! "request_id") →
  accept_request request s
  = (inr (mkResponse (Error "No FriendRequest matches the given query.")
                     HTTP_500_INTERNAL_SERVER_ERROR), s).
Proof. unfold accept_request. status_view_missing. Qed.

Lemma reject_request_unresolved (s : Store) (request : HttpRequest) :
  (∀ r, r ∈ friend_requests s →
        Some (FriendRequest.id r) ≠ data request !! "request_id") →
  reject_request request s
  = (inr (mkResponse (Error "No FriendRequest matches the given query.")
                     HTTP_500_INTERNAL_SERVER_ERROR), s).
Proof. unfold reject_request. status_view_missing. Qed.

Lemma accept_request_stored (s : Store) (request : HttpRequest)
    (r : FriendRequest.t) :
  well_formed s → r ∈ friend_requests s →
  data request !! "request_id" = Some (FriendRequest.id r) →
  accept_request request s
  = (inr (mkResponse (StatusOnly accepted) HTTP_200_OK),
     with_status accepted r s).
Proof. unfold accept_request. status_view_stored. Qed.

Lemma reject_request_stored (s : Store) (request : HttpRequest)
    (r : FriendRequest.t) :
  well_formed s → r ∈ friend_requests s →
  data request !! "request_id" = Some (FriendRequest.id r) →
  reject_request request s
  = (inr (mkResponse (StatusOnly rejected) HTTP_200_OK),
     with_status rejected r s).
Proof. unfold reject_request. status_view_stored. Qed.

(** ** The schema constraints are invariants of the service *)

Lemma unique_key_inj {A K} (key : A → K) (l : list A) (x y : A) :
  NoDup (key <$> l) → x ∈ l → y ∈ l → key x = key y → x = y.
Proof.
  induction l as [|z l IH]; intros Hnd Hx Hy Hk.
  { by apply elem_of_nil in Hx. }
  rewrite fmap_cons in Hnd. apply NoDup_cons in Hnd as [Hz Hnd].
  apply elem_of_cons in Hx as [->|Hx]; apply elem_of_cons in Hy as [->|Hy].
  - done.
  - exfalso. apply Hz. rewrite Hk. by apply list_elem_of_fmap_2.
  - exfalso. apply Hz. rewrite <- Hk. by apply list_elem_of_fmap_2.
  - by apply IH.
Qed.

Lemma with_status_ids (v : Status) (r : FriendRequest.t) (s : Store) :
  FriendRequest.id <$> friend_requests (with_status v r s)
  = FriendRequest.id <$> friend_requests s.
Proof.
  unfold with_status; cbn. rewrite <- list_fmap_compose.
  apply list_fmap_ext. intros i x _. cbn. by case_decide.
Qed.

Lemma with_status_pairs (v : Status) (r : FriendRequest.t) (s : Store) :
  well_formed s → r ∈ friend_requests s →
  pair_of <$> friend_requests (with_status v r s)
  = pair_of <$> friend_requests s.
Proof.
  intros Hwf Hr. unfold with_status; cbn. rewrite <- list_fmap_compose.
  apply list_fmap_ext. intros i x Hx. cbn. case_decide as Hid; [|done].
  apply list_elem_of_lookup_2 in Hx.
  by rewrite (unique_key_inj FriendRequest.id _ x r (wf_ids _ Hwf)).
Qed.

Lemma wf_with_status (v : Status) (r : FriendRequest.t) (s : Store) :
  well_formed s → r ∈ friend_requests s → well_formed (with_status v r s).
Proof.
  intros Hwf Hr. split.
  - apply Hwf.
  - rewrite with_status_ids. apply Hwf.
  - intros r' Hr'. cbn in *.
    apply list_elem_of_fmap in Hr' as (x & -> & Hx).
    case_decide as Hid; cbn; [rewrite <- Hid|]; by apply Hwf.
  - rewrite with_status_pairs by done. apply Hwf.
Qed.

Lemma wf_created (s : Store) (from to : Z) :
  well_formed s →
  (∀ r, r ∈ friend_requests s →
        ¬ (FriendRequest.from_user r = from ∧ FriendRequest.to_user r = to)) →
  well_formed (created s from to).
Proof.
  intros Hwf Hnone. split; cbn.
  - apply Hwf.
  - rewrite fmap_app. apply NoDup_app. split_and!.
    + apply Hwf.
    + intros i Hi Hin. apply list_elem_of_singleton in Hin. cbn in Hin.
      apply list_elem_of_fmap in Hi as (x & -> & Hx).
      apply (wf_next_id _ Hwf) in Hx. lia.
    + apply NoDup_singleton.
  - intros r Hr. apply elem_of_app in Hr as [Hr|Hr].
    + apply (wf_next_id _ Hwf) in Hr. lia.
    + apply list_elem_of_singleton in Hr as ->. cbn. lia.
  - rewrite fmap_app. apply NoDup_app. split_and!.
    + apply Hwf.
    + intros p Hp Hin. apply list_elem_of_singleton in Hin. cbn in Hin.
      apply list_elem_of_fmap in Hp as (x & -> & Hx).
      apply (Hnone x Hx). unfold pair_of in Hin. by simplify_eq.
    + apply NoDup_singleton.
Qed.

(** When [get] reports no row, no row passes the filter. *)
Lemma objects_get_DoesNotExist {A} (m m' : Model) (P : A → Prop)
    `{!∀ x, Decision (P x)} (l : list A) :
  objects_get m P l = inl (DoesNotExist m') → ∀ y, y ∈ l → ¬ P y.
Proof.
  unfold objects_get. intros Hget y Hy HP.
  destruct (filter P l) as [|x [|z k]] eqn:Hf; simplify_eq.
  by eapply filter_nil_not_elem_of.
Qed.

(** The store a view leaves behind, whatever the request. *)
Lemma send_request_store (s : Store) (request : HttpRequest) :
  (send_request request s).2 = s
  ∨ ∃ B, B ∈ users s
         ∧ Some (User.id B) = data request !! "to_user_id"
         ∧ (∀ r, r ∈ friend_requests s →
                 ¬ (FriendRequest.from_user r = User.id (user request)
                    ∧ FriendRequest.to_user r = User.id B))
         ∧ (send_request request s).2
           = created s (User.id (user request)) (User.id B).
Proof.
  unfold send_request. run_view.
  case_decide; [by left|].
  destruct (get_object_or_404 _ _ _) as [e|B] eqn:HB; cbn.
  { left. by destruct e as [[]| | |]. }
  apply get_object_or_404_inr in HB as [HB Hid].
  unfold get_or_create. run_view.
  destruct (objects_get _ _ _) as [e|r] eqn:Hget; cbn; [|by left].
  destruct e as [m| | |]; cbn; try by left.
  right. exists B. split_and!; [done..| |done].
  by eapply objects_get_DoesNotExist.
Qed.

Lemma accept_request_store (s : Store) (request : HttpRequest) :
  (accept_request request s).2 = s
  ∨ ∃ r, r ∈ friend_requests s
         ∧ (accept_request request s).2 = with_status accepted r s.
Proof.
  unfold accept_request. run_view.
  destruct (get_object_or_404 _ _ _) as [e|r] eqn:Hr; cbn.
  { left. by destruct e as [[]| | |]. }
  apply get_object_or_404_inr in Hr as [Hr Hid].
  right. exists r. split; [done|]. by rewrite save_stored.
Qed.

Lemma reject_request_store (s : Store) (request : HttpRequest) :
  (reject_request request s).2 = s
  ∨ ∃ r, r ∈ friend_requests s
         ∧ (reject_request request s).2 = with_status rejected r s.
Proof.
  unfold reject_request. run_view.
  destruct (get_object_or_404 _ _ _) as [e|r] eqn:Hr; cbn.
  { left. by destruct e as [[]| | |]. }
  apply get_object_or_404_inr in Hr as [Hr Hid].
  right. exists r. split; [done|]. by rewrite save_stored.
Qed.

(** The two list views only read. *)
Lemma list_friends_store paginate_queryset (s : Store) (request : HttpRequest) :
  (list_friends paginate_queryset request s).2 = s.
Proof.
  unfold list_friends. run_view.
  by destruct (paginate_queryset _ _ _) as [e|[page|]].
Qed.

Lemma list_pending_requests_store paginate_queryset (s : Store)
    (request : HttpRequest) :
  (list_pending_requests paginate_queryset request s).2 = s.
Proof.
  unfold list_pending_requests. run_view.
  by destruct (paginate_queryset _ _ _) as [e|[page|]].
Qed.

Lemma wf_initial (s : Store) : initial s → well_formed s.
Proof.
  intros [Hu Hr]. split; rewrite ?Hr; [done|constructor| |constructor].
  intros r Hin. by apply elem_of_nil in Hin.
Qed.

Lemma wf_step (s s' : Store) : well_formed s → step s s' → well_formed s'.
Proof.
  intros Hwf Hstep. destruct Hstep as [request|request|request|pq request|pq request|t].
  - destruct (send_request_store s request) as [->|(B & _ & _ & Hnone & ->)];
      [done|by apply wf_created].
  - destruct (accept_request_store s request) as [->|(r & Hr & ->)];
      [done|by apply wf_with_status].
  - destruct (reject_request_store s request) as [->|(r & Hr & ->)];
      [done|by apply wf_with_status].
  - by rewrite list_friends_store.
  - by rewrite list_pending_requests_store.
  - by destruct Hwf.
Qed.

Lemma wf_reachable (s0 s : Store) : initial s0 → rtc step s0 s → well_formed s.
Proof.
  intros Hinit Hsteps. apply wf_initial in Hinit.
  induction Hsteps as [|s1 s2 s3 Hstep _ IH]; [done|].
  apply IH. by eapply wf_step.
Qed.

(** ** The rate limit *)

(** C2: a user with three or more pending outgoing requests gets 429
    (Rate limit exceeded) from [send_request] whatever the request data
    is, including a recipient id that matches no user, and nothing is
    stored. *)
Theorem send_request_rate_limit (s : Store) (request : HttpRequest) :
  (3 ≤ length (pending_outgoing s (user request)))%nat →
  send_request request s
  = (inr (mkResponse (Error "Rate limit exceeded") HTTP_429_TOO_MANY_REQUESTS),
     s).
Proof.
  intros Hlim. unfold send_request, try_except, bind, get_store, ret.
  cbn. by rewrite decide_True.
Qed.

Lemma initial_fresh_store : initial fresh_store.
Proof. split; [|done]. apply (bool_decide_unpack _). by vm_compute. Qed.

Lemma wf_fresh_store : well_formed fresh_store.
Proof. apply wf_initial, initial_fresh_store. Qed.

Lemma wf_sent_store : well_formed sent_store.
Proof.
  apply (wf_step fresh_store), step_send.
  apply wf_initial, initial_fresh_store.
Qed.

Lemma wf_busy_store : well_formed busy_store.
Proof.
  apply (wf_reachable fresh_store); [apply initial_fresh_store|].
  unfold busy_store. repeat (eapply rtc_r; [|apply step_send]). apply rtc_refl.
Qed.

Lemma send_request_rate_limit_witness :
  (3 ≤ length (pending_outgoing busy_store alice))%nat
  ∧ send_request (post alice "to_user_id" 99) busy_store
    = (inr (mkResponse (Error "Rate limit exceeded")
                       HTTP_429_TOO_MANY_REQUESTS), busy_store).
Proof.
  assert (3 ≤ length (pending_outgoing busy_store alice))%nat as Hlim
    by (vm_compute; lia).
  split; [exact Hlim|].
  exact (send_request_rate_limit busy_store (post alice "to_user_id" 99) Hlim).
Defined.

(** ** Uniqueness of a request per ordered pair *)

(** C1, as amended: for a sender under the rate limit and a recipient id
    that resolves to a user B, [send_request] answers 400 (Friend request
    already sent) and stores nothing when a request from the sender to B
    exists in any status, and otherwise answers 201 with a new pending
    request from the sender to B; a repeated send, the sender still being
    under the limit, is then answered 400. *)
Theorem send_request_get_or_create (s : Store) (request : HttpRequest)
    (B : User.t) :
  well_formed s →
  (length (pending_outgoing s (user request)) < 3)%nat →
  B ∈ users s →
  data request !! "to_user_id" = Some (User.id B) →
  let A := User.id (user request) in
  ((∃ r, r ∈ friend_requests s
         ∧ FriendRequest.from_user r = A ∧ FriendRequest.to_user r = User.id B) →
   send_request request s
   = (inr (mkResponse (Error "Friend request already sent")
                      HTTP_400_BAD_REQUEST), s))
  ∧ ((∀ r, r ∈ friend_requests s →
           ¬ (FriendRequest.from_user r = A
              ∧ FriendRequest.to_user r = User.id B)) →
     send_request request s
     = (inr (mkResponse (FriendRequestData (new_request s A (User.id B)))
                        HTTP_201_CREATED),
        created s A (User.id B))
     ∧ FriendRequest.status (new_request s A (User.id B)) = pending
     ∧ ((length (pending_outgoing s (user request)) < 2)%nat →
        send_request request (created s A (User.id B))
        = (inr (mkResponse (Error "Friend request already sent")
                           HTTP_400_BAD_REQUEST),
           created s A (User.id B)))).
Proof.
  intros Hwf Hlim HB Hto A. split.
  - intros (r & Hr & Hfrom & HrB). by eapply send_request_existing.
  - intros Hnone. split_and!; [by apply send_request_created|done|].
    intros Hlim2.
    apply (send_request_existing _ _ B (new_request s A (User.id B)));
      [by apply wf_created| |done|done| |done|done].
    + unfold pending_outgoing, created; cbn.
      rewrite filter_app, length_app. cbn.
      case_decide; cbn; unfold pending_outgoing in Hlim2; lia.
    + cbn. apply elem_of_app. right. by left.
Qed.

Lemma send_request_get_or_create_witness :
  well_formed fresh_store
  ∧ (length (pending_outgoing fresh_store alice) < 3)%nat
  ∧ bob ∈ users fresh_store
  ∧ data (post alice "to_user_id" 2) !! "to_user_id" = Some (User.id bob)
  ∧ send_request (post alice "to_user_id" 2) fresh_store
    = (inr (mkResponse (FriendRequestData (FriendRequest.mk 1 1 2 pending 0))
                       HTTP_201_CREATED),
       created fresh_store 1 2).
Proof.
  assert (length (pending_outgoing fresh_store alice) < 3)%nat as Hlim
    by (vm_compute; lia).
  assert (bob ∈ users fresh_store) as HB
    by (apply (bool_decide_unpack _); vm_compute; exact I).
  assert (data (post alice "to_user_id" 2) !! "to_user_id"
          = Some (User.id bob)) as Hto by reflexivity.
  split_and!; [apply wf_fresh_store|exact Hlim|exact HB|exact Hto|].
  apply (send_request_get_or_create fresh_store (post alice "to_user_id" 2)
           bob wf_fresh_store Hlim HB Hto).
  intros r Hr. cbn in Hr. by apply elem_of_nil in Hr.
Defined.

(** The claim as stated fails at the rate limit: Alice's request to Bob
    is stored, yet her repeated send is answered 429, not 400. *)
Lemma send_request_duplicate_counterexample :
  well_formed busy_store
  ∧ FriendRequest.mk 1 1 2 pending 0 ∈ friend_requests busy_store
  ∧ send_request (post alice "to_user_id" 2) busy_store
    = (inr (mkResponse (Error "Rate limit exceeded")
                       HTTP_429_TOO_MANY_REQUESTS), busy_store)
  ∧ (send_request (post alice "to_user_id" 2) busy_store).1
    ≠ inr (mkResponse (Error "Friend request already sent")
                      HTTP_400_BAD_REQUEST).
Proof.
  split_and!.
  - apply wf_busy_store.
  - apply (bool_decide_unpack _). by vm_compute.
  - by vm_compute.
  - by vm_compute.
Qed.

(** ** Rows of a store after a status change *)

Lemma with_status_elem (v : Status) (r r' : FriendRequest.t) (s : Store) :
  r' ∈ friend_requests (with_status v r s) →
  r' = FriendRequest.set_status v r
  ∨ (r' ∈ friend_requests s ∧ FriendRequest.id r' ≠ FriendRequest.id r).
Proof.
  cbn. intros Hr'. apply list_elem_of_fmap in Hr' as (x & -> & Hx).
  case_decide; [by left|by right].
Qed.

Lemma with_status_stored (v : Status) (r : FriendRequest.t) (s : Store) :
  r ∈ friend_requests s →
  FriendRequest.set_status v r ∈ friend_requests (with_status v r s).
Proof.
  intros Hr. cbn. apply list_elem_of_fmap. exists r. split; [|done].
  by rewrite decide_True.
Qed.

(** Rows with another key are the rows the store had. *)
Lemma with_status_other (v : Status) (r r' : FriendRequest.t) (s : Store) :
  FriendRequest.id r' ≠ FriendRequest.id r →
  r' ∈ friend_requests (with_status v r s) ↔ r' ∈ friend_requests s.
Proof.
  intros Hne. split.
  - intros Hr'. apply with_status_elem in Hr' as [->|[? _]]; [|done].
    by destruct Hne.
  - intros Hr'. cbn. apply list_elem_of_fmap. exists r'. split; [|done].
    by rewrite decide_False.
Qed.

(** ** The pending inbox *)

Lemma pending_requests_elem (s : Store) (B : User.t) (r : FriendRequest.t) :
  r ∈ pending_requests s B
  ↔ r ∈ friend_requests s
    ∧ FriendRequest.to_user r = User.id B ∧ FriendRequest.status r = pending.
Proof. unfold pending_requests. rewrite list_elem_of_filter. tauto. Qed.

Lemma pending_requests_with_status (v : Status) (s : Store) (B : User.t)
    (r r' : FriendRequest.t) :
  v ≠ pending →
  r' ∈ pending_requests (with_status v r s) B →
  FriendRequest.id r' ≠ FriendRequest.id r.
Proof.
  intros Hv Hr'. apply pending_requests_elem in Hr' as (Hr' & _ & Hst).
  apply with_status_elem in Hr' as [->|[_ Hne]]; [|done].
  cbn in Hst. by destruct Hv.
Qed.

(** What [list_pending_requests] answers, for any paginator. *)
Lemma list_pending_requests_answer
    (paginate_queryset :
       ∀ A : Type, HttpRequest → list A → Exception + option (list A))
    (s : Store) (request : HttpRequest) :
  list_pending_requests paginate_queryset request s
  = (inr (list_response FriendRequestList
            (pending_requests s (user request))
            (paginate_queryset _ request (pending_requests s (user request)))),
     s).
Proof.
  unfold list_pending_requests. run_view.
  by destruct (paginate_queryset _ _ _) as [e|[page|]].
Qed.

(** C3: the view [list_pending_requests], called by B, hands to the
    paginator (and without a paginator answers with) a list that holds a
    stored request to B exactly when its status is pending; once the
    request has been accepted or rejected, the list the view then hands
    over, or answers with, holds no row with its id. *)
Theorem pending_inbox_correct
    (paginate_queryset :
       ∀ A : Type, HttpRequest → list A → Exception + option (list A))
    (s : Store) (decision inbox : HttpRequest) (r : FriendRequest.t) :
  well_formed s →
  r ∈ friend_requests s →
  FriendRequest.to_user r = User.id (user inbox) →
  data decision !! "request_id" = Some (FriendRequest.id r) →
  (∃ l, list_pending_requests paginate_queryset inbox s
        = (inr (list_response FriendRequestList l
                  (paginate_queryset _ inbox l)), s)
        ∧ list_pending_requests no_paginator inbox s
          = (inr (mkResponse (FriendRequestList l) HTTP_200_OK), s)
        ∧ (r ∈ l ↔ FriendRequest.status r = pending))
  ∧ ∀ s', s' = (accept_request decision s).2
          ∨ s' = (reject_request decision s).2 →
      ∃ l, list_pending_requests paginate_queryset inbox s'
           = (inr (list_response FriendRequestList l
                     (paginate_queryset _ inbox l)), s')
           ∧ list_pending_requests no_paginator inbox s'
             = (inr (mkResponse (FriendRequestList l) HTTP_200_OK), s')
           ∧ ∀ r', r' ∈ l → FriendRequest.id r' ≠ FriendRequest.id r.
Proof.
  intros Hwf Hr HB Hid. split.
  - exists (pending_requests s (user inbox)). split_and!.
    + apply list_pending_requests_answer.
    + apply (list_pending_requests_answer no_paginator).
    + rewrite pending_requests_elem. tauto.
  - intros s' Hs'. exists (pending_requests s' (user inbox)). split_and!.
    + apply list_pending_requests_answer.
    + apply (list_pending_requests_answer no_paginator).
    + intros r'. destruct Hs' as [-> | ->].
      * rewrite (accept_request_stored s decision r) by done. cbn [snd].
        by apply pending_requests_with_status.
      * rewrite (reject_request_stored s decision r) by done. cbn [snd].
        by apply pending_requests_with_status.
Qed.

Lemma pending_inbox_correct_witness :
  well_formed sent_store
  ∧ FriendRequest.mk 1 1 2 pending 0 ∈ friend_requests sent_store
  ∧ FriendRequest.to_user (FriendRequest.mk 1 1 2 pending 0)
    = User.id (user (mkRequest bob ∅))
  ∧ data (post bob "request_id" 1) !! "request_id" = Some 1
  ∧ list_pending_requests no_paginator (mkRequest bob ∅) sent_store
    = (inr (mkResponse (FriendRequestList [FriendRequest.mk 1 1 2 pending 0])
                       HTTP_200_OK), sent_store)
  ∧ ∃ l, list_pending_requests no_paginator (mkRequest bob ∅)
           (accept_request (post bob "request_id" 1) sent_store).2
         = (inr (mkResponse (FriendRequestList l) HTTP_200_OK),
            (accept_request (post bob "request_id" 1) sent_store).2)
         ∧ ∀ r', r' ∈ l → FriendRequest.id r' ≠ 1.
Proof.
  assert (FriendRequest.mk 1 1 2 pending 0 ∈ friend_requests sent_store) as Hr
    by (apply (bool_decide_unpack _); vm_compute; exact I).
  assert (data (post bob "request_id" 1) !! "request_id" = Some 1) as Hid
    by reflexivity.
  split_and!; [apply wf_sent_store|exact Hr|reflexivity|exact Hid
              |vm_compute; reflexivity|].
  destruct (pending_inbox_correct no_paginator sent_store
              (post bob "request_id" 1) (mkRequest bob ∅)
              (FriendRequest.mk 1 1 2 pending 0) wf_sent_store Hr
              eq_refl Hid) as [_ Hafter].
  destruct (Hafter _ (or_introl eq_refl)) as (l & _ & Hview & Hgone).
  exists l. split; [exact Hview|exact Hgone].
Defined.

(** ** Friends *)

Lemma left_outer_join_Some {A} (related : list A) (x : A) :
  Some x ∈ left_outer_join related ↔ x ∈ related.
Proof.
  destruct related as [|y related]; cbn.
  - split; intros Hx; [|by apply elem_of_nil in Hx].
    apply list_elem_of_singleton in Hx. done.
  - rewrite <- fmap_cons. apply list_elem_of_fmap_inj. apply _.
Qed.

Lemma left_outer_join_inhabited {A} (related : list A) :
  ∃ o, o ∈ left_outer_join related.
Proof.
  destruct related as [|y related]; cbn; eexists; by left.
Qed.

(** Membership in the friends queryset: a user is returned exactly when
    an accepted request links it with [u], in either direction. *)
Lemma friends_elem (s : Store) (u U : User.t) :
  U ∈ friends s u
  ↔ U ∈ users s
    ∧ ∃ r, r ∈ friend_requests s
           ∧ FriendRequest.status r = accepted
           ∧ ((FriendRequest.from_user r = User.id U
               ∧ FriendRequest.to_user r = User.id u)
              ∨ (FriendRequest.from_user r = User.id u
                 ∧ FriendRequest.to_user r = User.id U)).
Proof.
  unfold friends. rewrite list_elem_of_bind. split.
  - intros (V & HU & HV).
    apply list_elem_of_bind in HU as (sent & HU & Hsent).
    apply list_elem_of_bind in HU as (received & HU & Hreceived).
    case_decide as HQ; [|by apply elem_of_nil in HU].
    apply list_elem_of_singleton in HU as ->. split; [done|].
    destruct HQ as [HQ|HQ].
    + destruct sent as [r|]; [|done]. destruct HQ as [Hto Hst].
      apply left_outer_join_Some, list_elem_of_filter in Hsent as [Hfrom Hr].
      exists r. split_and!; [done..|]. by left.
    + destruct received as [r|]; [|done]. destruct HQ as [Hfrom Hst].
      apply left_outer_join_Some, list_elem_of_filter in Hreceived as [Hto Hr].
      exists r. split_and!; [done..|]. by right.
  - intros (HU & r & Hr & Hst & Hdir). exists U. split; [|done].
    destruct Hdir as [[Hfrom Hto]|[Hfrom Hto]].
    + destruct (left_outer_join_inhabited
                  (filter (λ r, FriendRequest.to_user r = User.id U)
                          (friend_requests s))) as [received Hreceived].
      apply list_elem_of_bind. exists (Some r). split.
      * apply list_elem_of_bind. exists received. split; [|done].
        rewrite decide_True; [by left|]. by left.
      * apply left_outer_join_Some, list_elem_of_filter. done.
    + destruct (left_outer_join_inhabited
                  (filter (λ r, FriendRequest.from_user r = User.id U)
                          (friend_requests s))) as [sent Hsent].
      apply list_elem_of_bind. exists sent. split; [|done].
      apply list_elem_of_bind. exists (Some r). split.
      * rewrite decide_True; [by left|]. by right.
      * apply left_outer_join_Some, list_elem_of_filter. done.
Qed.

(** What [list_friends] answers, for any paginator. *)
Lemma list_friends_answer
    (paginate_queryset :
       ∀ A : Type, HttpRequest → list A → Exception + option (list A))
    (s : Store) (request : HttpRequest) :
  list_friends paginate_queryset request s
  = (inr (list_response UserList (friends s (user request))
            (paginate_queryset _ request (friends s (user request)))), s).
Proof.
  unfold list_friends. run_view.
  by destruct (paginate_queryset _ _ _) as [e|[page|]].
Qed.

(** C4: once the request from A to B has been accepted, the view
    [list_friends] called by A hands to the paginator (and without a
    paginator answers with) a list that includes B, and called by B a
    list that includes A. *)
Theorem friends_after_accept
    (paginate_queryset :
       ∀ A : Type, HttpRequest → list A → Exception + option (list A))
    (s : Store) (decision asA asB : HttpRequest) (r : FriendRequest.t) :
  well_formed s →
  user asA ∈ users s → user asB ∈ users s →
  r ∈ friend_requests s →
  FriendRequest.from_user r = User.id (user asA) →
  FriendRequest.to_user r = User.id (user asB) →
  data decision !! "request_id" = Some (FriendRequest.id r) →
  (∃ l, user asB ∈ l
        ∧ list_friends paginate_queryset asA (accept_request decision s).2
          = (inr (list_response UserList l (paginate_queryset _ asA l)),
             (accept_request decision s).2)
        ∧ list_friends no_paginator asA (accept_request decision s).2
          = (inr (mkResponse (UserList l) HTTP_200_OK),
             (accept_request decision s).2))
  ∧ (∃ l, user asA ∈ l
          ∧ list_friends paginate_queryset asB (accept_request decision s).2
            = (inr (list_response UserList l (paginate_queryset _ asB l)),
               (accept_request decision s).2)
          ∧ list_friends no_paginator asB (accept_request decision s).2
            = (inr (mkResponse (UserList l) HTTP_200_OK),
               (accept_request decision s).2)).
Proof.
  intros Hwf HA HB Hr Hfrom Hto Hid.
  assert (user asB ∈ friends (accept_request decision s).2 (user asA)
          ∧ user asA ∈ friends (accept_request decision s).2 (user asB))
    as [HBA HAB].
  { rewrite (accept_request_stored s decision r) by done. cbn [snd].
    pose proof (with_status_stored accepted r s Hr) as Hr'.
    split; apply friends_elem; (split; [done|]);
      exists (FriendRequest.set_status accepted r);
      (split_and!; [done|done|]); cbn; [by right|by left]. }
  split.
  - exists (friends (accept_request decision s).2 (user asA)). split_and!.
    + done.
    + apply list_friends_answer.
    + apply (list_friends_answer no_paginator).
  - exists (friends (accept_request decision s).2 (user asB)). split_and!.
    + done.
    + apply list_friends_answer.
    + apply (list_friends_answer no_paginator).
Qed.

Lemma friends_after_accept_witness :
  well_formed sent_store
  ∧ user (mkRequest alice ∅) ∈ users sent_store
  ∧ user (mkRequest bob ∅) ∈ users sent_store
  ∧ FriendRequest.mk 1 1 2 pending 0 ∈ friend_requests sent_store
  ∧ data (post bob "request_id" 1) !! "request_id" = Some 1
  ∧ (∃ l, bob ∈ l
          ∧ list_friends no_paginator (mkRequest alice ∅)
              (accept_request (post bob "request_id" 1) sent_store).2
            = (inr (mkResponse (UserList l) HTTP_200_OK),
               (accept_request (post bob "request_id" 1) sent_store).2))
  ∧ (∃ l, alice ∈ l
          ∧ list_friends no_paginator (mkRequest bob ∅)
              (accept_request (post bob "request_id" 1) sent_store).2
            = (inr (mkResponse (UserList l) HTTP_200_OK),
               (accept_request (post bob "request_id" 1) sent_store).2)).
Proof.
  assert (user (mkRequest alice ∅) ∈ users sent_store) as HA
    by (apply (bool_decide_unpack _); vm_compute; exact I).
  assert (user (mkRequest bob ∅) ∈ users sent_store) as HB
    by (apply (bool_decide_unpack _); vm_compute; exact I).
  assert (FriendRequest.mk 1 1 2 pending 0 ∈ friend_requests sent_store) as Hr
    by (apply (bool_decide_unpack _); vm_compute; exact I).
  assert (data (post bob "request_id" 1) !! "request_id" = Some 1) as Hid
    by reflexivity.
  destruct (friends_after_accept no_paginator sent_store
              (post bob "request_id" 1) (mkRequest alice ∅) (mkRequest bob ∅)
              (FriendRequest.mk 1 1 2 pending 0) wf_sent_store HA HB Hr
              eq_refl eq_refl Hid)
    as [(l1 & Hin1 & _ & Hview1) (l2 & Hin2 & _ & Hview2)].
  split_and!; [apply wf_sent_store|exact HA|exact HB|exact Hr|exact Hid| |].
  - exists l1. split; [exact Hin1|exact Hview1].
  - exists l2. split; [exact Hin2|exact Hview2].
Defined.

(** ** Ids that do not resolve *)

(** C5: Alice, who has no pending request, sends to the id 99 that no
    user has.  [get_object_or_404] raises [Http404], the clause for
    [User.DoesNotExist] does not match it, and the catch-all clause
    answers 500 with the exception's text: the 404 answer that the view
    prepares for this case is never given. *)
Theorem send_request_unknown_recipient :
  (length (pending_outgoing fresh_store alice) < 3)%nat
  ∧ (∀ u, u ∈ users fresh_store → User.id u ≠ 99)
  ∧ send_request (post alice "to_user_id" 99) fresh_store
    = (inr (mkResponse (Error "No User matches the given query.")
                       HTTP_500_INTERNAL_SERVER_ERROR), fresh_store)
  ∧ HTTP_500_INTERNAL_SERVER_ERROR ≠ HTTP_404_NOT_FOUND.
Proof.
  assert (∀ u, u ∈ users fresh_store → User.id u ≠ 99) as Hno.
  { intros u Hu. cbn in Hu. set_unfold in Hu.
    destruct Hu as [->|[->|[->|[->|[->|[]]]]]]; done. }
  split_and!; [vm_compute; lia|done| |done].
  apply send_request_unresolved; [vm_compute; lia|].
  intros u Hu Heq. apply (Hno u Hu). cbn in Heq.
  rewrite lookup_singleton_eq in Heq. congruence.
Qed.

(** C6: Bob accepts, or rejects, the request id 99 while only request 1
    is stored.  [get_object_or_404] raises [Http404], the clause for
    [FriendRequest.DoesNotExist] does not match it, and both views answer
    500 with the exception's text instead of the 404 they prepare. *)
Theorem accept_reject_unknown_request :
  (∀ r, r ∈ friend_requests sent_store → FriendRequest.id r ≠ 99)
  ∧ accept_request (post bob "request_id" 99) sent_store
    = (inr (mkResponse (Error "No FriendRequest matches the given query.")
                       HTTP_500_INTERNAL_SERVER_ERROR), sent_store)
  ∧ reject_request (post bob "request_id" 99) sent_store
    = (inr (mkResponse (Error "No FriendRequest matches the given query.")
                       HTTP_500_INTERNAL_SERVER_ERROR), sent_store)
  ∧ HTTP_500_INTERNAL_SERVER_ERROR ≠ HTTP_404_NOT_FOUND.
Proof.
  assert (∀ r, r ∈ friend_requests sent_store → FriendRequest.id r ≠ 99)
    as Hno.
  { intros r Hr.
    change (r ∈ [FriendRequest.mk 1 1 2 pending 0]) in Hr.
    apply list_elem_of_singleton in Hr as ->. done. }
  assert (∀ r, r ∈ friend_requests sent_store →
               Some (FriendRequest.id r)
               ≠ data (post bob "request_id" 99) !! "request_id") as Hno'.
  { intros r Hr Heq. apply (Hno r Hr). cbn in Heq.
    rewrite lookup_singleton_eq in Heq. congruence. }
  split_and!; [done| | |done].
  - by apply accept_request_unresolved.
  - by apply reject_request_unresolved.
Qed.

(** ** Status transitions *)

Lemma with_status_twice (v1 v2 : Status) (r : FriendRequest.t) (s : Store) :
  with_status v2 (FriendRequest.set_status v1 r) (with_status v1 r s)
  = with_status v2 r s.
Proof.
  unfold with_status; cbn. f_equal. rewrite <- list_fmap_compose.
  apply list_fmap_ext. intros i x _. cbn.
  destruct (decide (FriendRequest.id x = FriendRequest.id r)) as [Hx|Hx].
  - by rewrite decide_True.
  - by rewrite decide_False.
Qed.

(** C7: for a stored request, whatever its current status, accept
    answers 200 and leaves it accepted, reject answers 200 and leaves it
    rejected, and of an accept and a reject on the same id the one
    applied last decides the stored status. *)
Theorem accept_reject_last_applied (s : Store) (request : HttpRequest)
    (r : FriendRequest.t) :
  well_formed s →
  r ∈ friend_requests s →
  data request !! "request_id" = Some (FriendRequest.id r) →
  (accept_request request s
   = (inr (mkResponse (StatusOnly accepted) HTTP_200_OK),
      with_status accepted r s)
   ∧ reject_request request s
     = (inr (mkResponse (StatusOnly rejected) HTTP_200_OK),
        with_status rejected r s))
  ∧ (∀ v, FriendRequest.set_status v r ∈ friend_requests (with_status v r s)
          ∧ ∀ r', r' ∈ friend_requests (with_status v r s) →
                  FriendRequest.id r' = FriendRequest.id r →
                  FriendRequest.status r' = v)
  ∧ reject_request request (accept_request request s).2
    = (inr (mkResponse (StatusOnly rejected) HTTP_200_OK),
       with_status rejected r s)
  ∧ accept_request request (reject_request request s).2
    = (inr (mkResponse (StatusOnly accepted) HTTP_200_OK),
       with_status accepted r s).
Proof.
  intros Hwf Hr Hid.
  pose proof (accept_request_stored s request r Hwf Hr Hid) as Hacc.
  pose proof (reject_request_stored s request r Hwf Hr Hid) as Hrej.
  split_and!; [done|done| | |].
  - intros v. split; [by apply with_status_stored|].
    intros r' Hr' Hsame. by apply with_status_elem in Hr' as [->|[_ ?]].
  - rewrite Hacc. cbn [snd].
    rewrite (reject_request_stored _ request
               (FriendRequest.set_status accepted r));
      [by rewrite with_status_twice|by apply wf_with_status
      |by apply with_status_stored|done].
  - rewrite Hrej. cbn [snd].
    rewrite (accept_request_stored _ request
               (FriendRequest.set_status rejected r));
      [by rewrite with_status_twice|by apply wf_with_status
      |by apply with_status_stored|done].
Qed.

Lemma accept_reject_last_applied_witness :
  well_formed sent_store
  ∧ FriendRequest.mk 1 1 2 pending 0 ∈ friend_requests sent_store
  ∧ data (post bob "request_id" 1) !! "request_id" = Some 1
  ∧ reject_request (post bob "request_id" 1)
      (accept_request (post bob "request_id" 1) sent_store).2
    = (inr (mkResponse (StatusOnly rejected) HTTP_200_OK),
       with_status rejected (FriendRequest.mk 1 1 2 pending 0) sent_store).
Proof.
  assert (FriendRequest.mk 1 1 2 pending 0 ∈ friend_requests sent_store) as Hr
    by (apply (bool_decide_unpack _); vm_compute; exact I).
  assert (data (post bob "request_id" 1) !! "request_id" = Some 1) as Hid
    by reflexivity.
  split_and!; [apply wf_sent_store|exact Hr|exact Hid|].
  apply (accept_reject_last_applied sent_store (post bob "request_id" 1)
           (FriendRequest.mk 1 1 2 pending 0) wf_sent_store Hr Hid).
Defined.

(** ** Only pending requests count toward the limit *)

Section count.
Context {A K : Type} `{!EqDecision K} (key : A → K).
Context (P : A → Prop) `{!∀ x, Decision (P x)}.

Lemma replace_row_absent (x x' : A) (l : list A) :
  key x ∉ key <$> l → replace_row key x x' l = l.
Proof.
  induction l as [|y l IH]; intros Hx; [done|].
  rewrite fmap_cons, not_elem_of_cons in Hx. destruct Hx as [Hy Hl].
  unfold replace_row in *. cbn. rewrite decide_False by done.
  f_equal. by apply IH.
Qed.

(** When a counted row is replaced by one that does not count, the
    count drops by exactly one. *)
Lemma length_filter_replace_row (x x' : A) (l : list A) :
  NoDup (key <$> l) → x ∈ l → P x → ¬ P x' →
  length (filter P l) = S (length (filter P (replace_row key x x' l))).
Proof.
  induction l as [|y l IH]; intros Hnd Hx HP HP'.
  { by apply elem_of_nil in Hx. }
  rewrite fmap_cons in Hnd. apply NoDup_cons in Hnd as [Hy Hnd].
  apply elem_of_cons in Hx as [->|Hx].
  - change (replace_row key y x' (y :: l))
      with ((if decide (key y = key y) then x' else y) :: replace_row key y x' l).
    rewrite decide_True by done.
    rewrite filter_cons_True, filter_cons_False by done.
    by rewrite replace_row_absent.
  - change (replace_row key x x' (y :: l))
      with ((if decide (key y = key x) then x' else y) :: replace_row key x x' l).
    rewrite decide_False.
    + rewrite !filter_cons. case_decide; cbn; rewrite IH; done.
    + intros Hk. apply Hy. rewrite Hk. by apply list_elem_of_fmap_2.
Qed.
End count.

Lemma pending_outgoing_with_status (v : Status) (s : Store) (A : User.t)
    (r : FriendRequest.t) :
  well_formed s → r ∈ friend_requests s →
  FriendRequest.from_user r = User.id A →
  FriendRequest.status r = pending → v ≠ pending →
  length (pending_outgoing s A)
  = S (length (pending_outgoing (with_status v r s) A)).
Proof.
  intros Hwf Hr Hfrom Hst Hv. unfold pending_outgoing.
  apply (length_filter_replace_row FriendRequest.id _ r
           (FriendRequest.set_status v r) (friend_requests s));
    [apply Hwf|done|done|].
  cbn. intros [_ ?]. by destruct Hv.
Qed.

(** C8: a user at the limit, with exactly three pending outgoing
    requests, is refused; once one of them has been accepted or rejected
    only two count, and a send to a user it has no request to yet is
    answered 201 and stored as pending. *)
Theorem send_after_transition (s s' : Store) (decision request : HttpRequest)
    (C : User.t) (r : FriendRequest.t) :
  well_formed s →
  length (pending_outgoing s (user request)) = 3%nat →
  r ∈ friend_requests s →
  FriendRequest.from_user r = User.id (user request) →
  FriendRequest.status r = pending →
  data decision !! "request_id" = Some (FriendRequest.id r) →
  C ∈ users s →
  data request !! "to_user_id" = Some (User.id C) →
  (∀ r', r' ∈ friend_requests s →
         ¬ (FriendRequest.from_user r' = User.id (user request)
            ∧ FriendRequest.to_user r' = User.id C)) →
  s' = (accept_request decision s).2 ∨ s' = (reject_request decision s).2 →
  send_request request s
  = (inr (mkResponse (Error "Rate limit exceeded") HTTP_429_TOO_MANY_REQUESTS),
     s)
  ∧ length (pending_outgoing s' (user request)) = 2%nat
  ∧ send_request request s'
    = (inr (mkResponse
              (FriendRequestData
                 (new_request s' (User.id (user request)) (User.id C)))
              HTTP_201_CREATED),
       created s' (User.id (user request)) (User.id C))
  ∧ FriendRequest.status (new_request s' (User.id (user request)) (User.id C))
    = pending.
Proof.
  intros Hwf Hlim Hr Hfrom Hst Hid HC Hto Hnone Hs'.
  assert (∃ v, v ≠ pending ∧ s' = with_status v r s) as (v & Hv & ->).
  { destruct Hs' as [->| ->].
    - exists accepted. by rewrite (accept_request_stored s decision r).
    - exists rejected. by rewrite (reject_request_stored s decision r). }
  pose proof (pending_outgoing_with_status v s (user request) r
                Hwf Hr Hfrom Hst Hv) as Hcount.
  split_and!; [apply send_request_at_limit; lia|lia| |done].
  apply send_request_created;
    [by apply wf_with_status|lia|done|done|].
  intros r' Hr'. apply with_status_elem in Hr' as [->|[Hr' _]].
  - cbn. by apply Hnone.
  - by apply Hnone.
Qed.

Lemma send_after_transition_witness :
  well_formed busy_store
  ∧ length (pending_outgoing busy_store alice) = 3%nat
  ∧ FriendRequest.mk 1 1 2 pending 0 ∈ friend_requests busy_store
  ∧ erin ∈ users busy_store
  ∧ send_request (post alice "to_user_id" 5)
      (reject_request (post bob "request_id" 1) busy_store).2
    = (inr (mkResponse (FriendRequestData (FriendRequest.mk 4 1 5 pending 0))
                       HTTP_201_CREATED),
       created (reject_request (post bob "request_id" 1) busy_store).2 1 5).
Proof.
  assert (length (pending_outgoing busy_store alice) = 3%nat) as Hlim
    by (vm_compute; reflexivity).
  assert (FriendRequest.mk 1 1 2 pending 0 ∈ friend_requests busy_store) as Hr
    by (apply (bool_decide_unpack _); vm_compute; exact I).
  assert (erin ∈ users busy_store) as HC
    by (apply (bool_decide_unpack _); vm_compute; exact I).
  assert (∀ r', r' ∈ friend_requests busy_store →
                ¬ (FriendRequest.from_user r' = User.id alice
                   ∧ FriendRequest.to_user r' = User.id erin)) as Hnone.
  { intros r' Hr'.
    change (r' ∈ [FriendRequest.mk 1 1 2 pending 0;
                  FriendRequest.mk 2 1 3 pending 0;
                  FriendRequest.mk 3 1 4 pending 0]) in Hr'.
    set_unfold in Hr'. destruct Hr' as [->|[->|[->|[]]]]; cbn; intros [_ ?]; done. }
  split_and!; [apply wf_busy_store|exact Hlim|exact Hr|exact HC|].
  apply (send_after_transition busy_store _ (post bob "request_id" 1)
           (post alice "to_user_id" 5) erin (FriendRequest.mk 1 1 2 pending 0)
           wf_busy_store Hlim Hr eq_refl eq_refl eq_refl HC eq_refl Hnone
           (or_intror eq_refl)).
Defined.

(** ** Self-requests *)

(** The claim as stated fails: Alice's send to her own id is answered
    201 and stores a request whose two users are both Alice. *)
Lemma self_request_counterexample :
  no_self_request fresh_store
  ∧ send_request (post alice "to_user_id" 1) fresh_store
    = (inr (mkResponse (FriendRequestData (FriendRequest.mk 1 1 1 pending 0))
                       HTTP_201_CREATED),
       mkStore (users fresh_store) [FriendRequest.mk 1 1 1 pending 0] 2 0)
  ∧ ¬ no_self_request
        (send_request (post alice "to_user_id" 1) fresh_store).2.
Proof.
  split_and!.
  - intros r Hr. cbn in Hr. by apply elem_of_nil in Hr.
  - by vm_compute.
  - intros Hno. apply (Hno (FriendRequest.mk 1 1 1 pending 0)); [|done].
    apply (bool_decide_unpack _). by vm_compute.
Qed.

(** ** Who may decide a request *)

(** C10: [accept_request] and [reject_request] do not depend on the
    acting user: on the same store and request data, two callers get the
    same response and leave the same store. *)
Theorem accept_reject_any_caller (s : Store) (u1 u2 : User.t)
    (d : gmap string Z) :
  accept_request (mkRequest u1 d) s = accept_request (mkRequest u2 d) s
  ∧ reject_request (mkRequest u1 d) s = reject_request (mkRequest u2 d) s.
Proof. split; reflexivity. Qed.

(** ** The list views without a paginator *)

(** The walk through the service: Alice sends to Bob (201, pending), the
    request is in Bob's inbox, Bob accepts (200), each is in the other's
    friend list, and Alice's second send to Bob is answered 400. *)
Example end_to_end :
  let send := post alice "to_user_id" 2 in
  let accept := post bob "request_id" 1 in
  let r := FriendRequest.mk 1 1 2 pending 0 in
  (send_request send fresh_store).1
  = inr (mkResponse (FriendRequestData r) HTTP_201_CREATED)
  ∧ pending_requests sent_store bob = [r]
  ∧ (accept_request accept sent_store).1
    = inr (mkResponse (StatusOnly accepted) HTTP_200_OK)
  ∧ friends (accept_request accept sent_store).2 alice = [bob]
  ∧ friends (accept_request accept sent_store).2 bob = [alice]
  ∧ (send_request send (accept_request accept sent_store).2).1
    = inr (mkResponse (Error "Friend request already sent")
                      HTTP_400_BAD_REQUEST).
Proof. cbv zeta. split_and!; by vm_compute. Qed.

(** Carol, who is neither the sender nor the recipient of Alice's
    request to Bob, accepts it. *)
Example accept_by_third_party :
  accept_request (post carol "request_id" 1) sent_store
  = (inr (mkResponse (StatusOnly accepted) HTTP_200_OK),
     with_status accepted (FriendRequest.mk 1 1 2 pending 0) sent_store).
Proof. by vm_compute. Qed.

Lemma list_friends_unpaginated (s : Store) (request : HttpRequest) :
  list_friends no_paginator request s
  = (inr (mkResponse (UserList (friends s (user request))) HTTP_200_OK), s).
Proof. reflexivity. Qed.

Lemma list_pending_requests_unpaginated (s : Store) (request : HttpRequest) :
  list_pending_requests no_paginator request s
  = (inr (mkResponse (FriendRequestList (pending_requests s (user request)))
                     HTTP_200_OK), s).
Proof. reflexivity. Qed.

(** * Further properties of the views *)

(** ** Every outcome of a view *)

Lemma get_object_or_404_inl {A} (m : Model) (P : A → Prop)
    `{!∀ x, Decision (P x)} (l : list A) (e : Exception) :
  get_object_or_404 m P l = inl e →
  e = Http404 m ∨ ∃ n, e = MultipleObjectsReturned m n.
Proof.
  unfold get_object_or_404, objects_get.
  destruct (filter P l) as [|x [|y k]]; intros He; simplify_eq; eauto.
Qed.

(** [get] returns a row only when it is the single row that passes. *)
Lemma get_object_or_404_only {A} (m : Model) (P : A → Prop)
    `{!∀ x, Decision (P x)} (l : list A) (x : A) :
  get_object_or_404 m P l = inr x → ∀ y, y ∈ l → P y → y = x.
Proof.
  unfold get_object_or_404, objects_get. intros Hget y Hy HP.
  assert (y ∈ filter P l) as Hin by (by apply list_elem_of_filter).
  destruct (filter P l) as [|z [|z' k]]; simplify_eq.
  by apply list_elem_of_singleton in Hin.
Qed.

(** The four ways [send_request] can end. *)
Lemma send_request_outcome (s : Store) (request : HttpRequest) :
  ((3 ≤ length (pending_outgoing s (user request)))%nat
   ∧ send_request request s
     = (inr (mkResponse (Error "Rate limit exceeded")
                        HTTP_429_TOO_MANY_REQUESTS), s))
  ∨ ((length (pending_outgoing s (user request)) < 3)%nat
     ∧ ∃ msg, send_request request s
              = (inr (mkResponse (Error msg) HTTP_500_INTERNAL_SERVER_ERROR),
                 s))
  ∨ ((length (pending_outgoing s (user request)) < 3)%nat
     ∧ ∃ B r, B ∈ users s
         ∧ data request !! "to_user_id" = Some (User.id B)
         ∧ r ∈ friend_requests s
         ∧ FriendRequest.from_user r = User.id (user request)
         ∧ FriendRequest.to_user r = User.id B
         ∧ send_request request s
           = (inr (mkResponse (Error "Friend request already sent")
                              HTTP_400_BAD_REQUEST), s))
  ∨ ((length (pending_outgoing s (user request)) < 3)%nat
     ∧ ∃ B, B ∈ users s
         ∧ data request !! "to_user_id" = Some (User.id B)
         ∧ (∀ r, r ∈ friend_requests s →
                 ¬ (FriendRequest.from_user r = User.id (user request)
                    ∧ FriendRequest.to_user r = User.id B))
         ∧ send_request request s
           = (inr (mkResponse
                     (FriendRequestData
                        (new_request s (User.id (user request)) (User.id B)))
                     HTTP_201_CREATED),
              created s (User.id (user request)) (User.id B))).
Proof.
  destruct (decide (3 ≤ length (pending_outgoing s (user request)))%nat)
    as [Hlim|Hlim].
  { left. split; [done|]. by apply send_request_at_limit. }
  right. assert (length (pending_outgoing s (user request)) < 3)%nat as Hlt
    by lia. clear Hlim.
  unfold send_request. run_view. rewrite decide_False by lia.
  destruct (get_object_or_404 _ _ _) as [e|B] eqn:HB; cbn.
  { left. split; [done|].
    apply get_object_or_404_inl in HB as [->|[n ->]]; cbn; eauto. }
  apply get_object_or_404_inr in HB as [HB Hid].
  unfold get_or_create. run_view.
  destruct (objects_get _ _ _) as [e|r] eqn:Hget; cbn.
  - destruct e as [m|m n|m|d]; cbn; [|left; split; eauto..].
    right. right. split; [done|]. exists B. split_and!; [done..| |done].
    by eapply objects_get_DoesNotExist.
  - apply objects_get_inr in Hget as [Hr [Hfrom Hto]].
    right. left. split; [done|]. exists B, r. by split_and!.
Qed.

(** The two ways [accept_request] and [reject_request] can end. *)
Lemma accept_request_outcome (s : Store) (request : HttpRequest) :
  (∃ msg, accept_request request s
          = (inr (mkResponse (Error msg) HTTP_500_INTERNAL_SERVER_ERROR), s))
  ∨ (∃ r, r ∈ friend_requests s
          ∧ data request !! "request_id" = Some (FriendRequest.id r)
          ∧ (∀ x, x ∈ friend_requests s →
                  FriendRequest.id x = FriendRequest.id r → x = r)
          ∧ accept_request request s
            = (inr (mkResponse (StatusOnly accepted) HTTP_200_OK),
               with_status accepted r s)).
Proof.
  unfold accept_request. run_view.
  destruct (get_object_or_404 _ _ _) as [e|r] eqn:Hr; cbn.
  { left. apply get_object_or_404_inl in Hr as [->|[n ->]]; cbn; eauto. }
  pose proof (get_object_or_404_only _ _ _ _ Hr) as Honly.
  apply get_object_or_404_inr in Hr as [Hr Hid].
  right. exists r. split_and!; [done|done| |by rewrite save_stored].
  intros x Hx Hsame. apply Honly; [done|]. by rewrite Hsame.
Qed.

Lemma reject_request_outcome (s : Store) (request : HttpRequest) :
  (∃ msg, reject_request request s
          = (inr (mkResponse (Error msg) HTTP_500_INTERNAL_SERVER_ERROR), s))
  ∨ (∃ r, r ∈ friend_requests s
          ∧ data request !! "request_id" = Some (FriendRequest.id r)
          ∧ (∀ x, x ∈ friend_requests s →
                  FriendRequest.id x = FriendRequest.id r → x = r)
          ∧ reject_request request s
            = (inr (mkResponse (StatusOnly rejected) HTTP_200_OK),
               with_status rejected r s)).
Proof.
  unfold reject_request. run_view.
  destruct (get_object_or_404 _ _ _) as [e|r] eqn:Hr; cbn.
  { left. apply get_object_or_404_inl in Hr as [->|[n ->]]; cbn; eauto. }
  pose proof (get_object_or_404_only _ _ _ _ Hr) as Honly.
  apply get_object_or_404_inr in Hr as [Hr Hid].
  right. exists r. split_and!; [done|done| |by rewrite save_stored].
  intros x Hx Hsame. apply Honly; [done|]. by rewrite Hsame.
Qed.

(** ** Self-requests, operation by operation *)

(** A status view keeps the sender and the recipient of every row. *)
Lemma with_status_users_kept (v : Status) (r : FriendRequest.t) (s : Store) :
  (∀ x, x ∈ friend_requests s →
        FriendRequest.id x = FriendRequest.id r → x = r) →
  (λ x, (FriendRequest.from_user x, FriendRequest.to_user x))
    <$> friend_requests (with_status v r s)
  = (λ x, (FriendRequest.from_user x, FriendRequest.to_user x))
      <$> friend_requests s.
Proof.
  intros Honly. unfold with_status; cbn. rewrite <- list_fmap_compose.
  apply list_fmap_ext. intros i x Hx. cbn.
  apply list_elem_of_lookup_2 in Hx.
  case_decide as Hsame; [|done]. by rewrite (Honly x Hx Hsame).
Qed.

(** C9, as amended: accept and reject leave the sender and the
    recipient of every stored request as they are, and a send whose
    recipient id is not the caller's own adds no self-request, so these
    operations keep a store free of self-requests; a send by a stored
    user to its own id is not guarded: under the rate limit, and with no
    request from the user to itself stored yet, it is answered 201 and a
    pending request from the user to itself is stored. *)
Theorem self_request_not_guarded (s : Store) (request : HttpRequest) :
  ((λ x, (FriendRequest.from_user x, FriendRequest.to_user x))
     <$> friend_requests (accept_request request s).2
   = (λ x, (FriendRequest.from_user x, FriendRequest.to_user x))
       <$> friend_requests s)
  ∧ ((λ x, (FriendRequest.from_user x, FriendRequest.to_user x))
       <$> friend_requests (reject_request request s).2
     = (λ x, (FriendRequest.from_user x, FriendRequest.to_user x))
         <$> friend_requests s)
  ∧ (data request !! "to_user_id" ≠ Some (User.id (user request)) →
     ∀ r, r ∈ friend_requests (send_request request s).2 →
          r ∈ friend_requests s
          ∨ FriendRequest.from_user r ≠ FriendRequest.to_user r)
  ∧ (no_self_request s →
     no_self_request (accept_request request s).2
     ∧ no_self_request (reject_request request s).2
     ∧ (data request !! "to_user_id" ≠ Some (User.id (user request)) →
        no_self_request (send_request request s).2))
  ∧ (well_formed s →
     user request ∈ users s →
     (length (pending_outgoing s (user request)) < 3)%nat →
     data request !! "to_user_id" = Some (User.id (user request)) →
     (∀ r, r ∈ friend_requests s →
           ¬ (FriendRequest.from_user r = User.id (user request)
              ∧ FriendRequest.to_user r = User.id (user request))) →
     send_request request s
     = (inr (mkResponse
               (FriendRequestData
                  (FriendRequest.mk (next_id s) (User.id (user request))
                     (User.id (user request)) pending (clock s)))
               HTTP_201_CREATED),
        created s (User.id (user request)) (User.id (user request)))
     ∧ FriendRequest.mk (next_id s) (User.id (user request))
         (User.id (user request)) pending (clock s)
       ∈ friend_requests (send_request request s).2
     ∧ ¬ no_self_request (send_request request s).2).
Proof.
  assert ((λ x, (FriendRequest.from_user x, FriendRequest.to_user x))
            <$> friend_requests (accept_request request s).2
          = (λ x, (FriendRequest.from_user x, FriendRequest.to_user x))
              <$> friend_requests s) as Hacc.
  { destruct (accept_request_outcome s request)
      as [[msg ->]|(r & _ & _ & Honly & ->)]; [done|].
    by apply with_status_users_kept. }
  assert ((λ x, (FriendRequest.from_user x, FriendRequest.to_user x))
            <$> friend_requests (reject_request request s).2
          = (λ x, (FriendRequest.from_user x, FriendRequest.to_user x))
              <$> friend_requests s) as Hrej.
  { destruct (reject_request_outcome s request)
      as [[msg ->]|(r & _ & _ & Honly & ->)]; [done|].
    by apply with_status_users_kept. }
  assert (data request !! "to_user_id" ≠ Some (User.id (user request)) →
          ∀ r, r ∈ friend_requests (send_request request s).2 →
               r ∈ friend_requests s
               ∨ FriendRequest.from_user r ≠ FriendRequest.to_user r) as Hsend.
  { intros Hother r.
    destruct (send_request_store s request)
      as [->|(B & _ & HB & _ & ->)]; [by left|].
    cbn. intros Hr. apply elem_of_app in Hr as [Hr|Hr]; [by left|].
    apply list_elem_of_singleton in Hr as ->. right. cbn. congruence. }
  assert (∀ s', (λ x, (FriendRequest.from_user x, FriendRequest.to_user x))
                  <$> friend_requests s'
                = (λ x, (FriendRequest.from_user x, FriendRequest.to_user x))
                    <$> friend_requests s →
                no_self_request s → no_self_request s') as Hkept.
  { intros s' Heq Hinv r' Hr' Hself.
    apply (list_elem_of_fmap_2
             (λ x, (FriendRequest.from_user x, FriendRequest.to_user x)))
      in Hr'.
    rewrite Heq in Hr'. apply list_elem_of_fmap in Hr' as (x & Hx & Hin).
    apply (Hinv x Hin). cbn in Hx. congruence. }
  split_and!; [done|done|done| |].
  - intros Hinv. split_and!; [by apply Hkept|by apply Hkept|].
    intros Hother r Hr. destruct (Hsend Hother r Hr); [by apply Hinv|done].
  - intros Hwf Hu Hlim Hself Hnone.
    pose proof (send_request_created s request (user request)
                  Hwf Hlim Hu Hself Hnone) as Hrun.
    split_and!; [exact Hrun| |].
    + rewrite Hrun. cbn. apply elem_of_app. right. by left.
    + rewrite Hrun. cbn [snd]. intros Hno.
      apply (Hno (new_request s (User.id (user request))
                              (User.id (user request)))); [|done].
      cbn. apply elem_of_app. right. by left.
Qed.

Lemma self_request_not_guarded_witness :
  well_formed fresh_store
  ∧ user (post alice "to_user_id" 1) ∈ users fresh_store
  ∧ (length (pending_outgoing fresh_store alice) < 3)%nat
  ∧ data (post alice "to_user_id" 1) !! "to_user_id" = Some (User.id alice)
  ∧ send_request (post alice "to_user_id" 1) fresh_store
    = (inr (mkResponse (FriendRequestData (FriendRequest.mk 1 1 1 pending 0))
                       HTTP_201_CREATED),
       created fresh_store 1 1).
Proof.
  assert (user (post alice "to_user_id" 1) ∈ users fresh_store) as Hu
    by (apply (bool_decide_unpack _); vm_compute; exact I).
  assert (length (pending_outgoing fresh_store alice) < 3)%nat as Hlim
    by (vm_compute; lia).
  assert (data (post alice "to_user_id" 1) !! "to_user_id"
          = Some (User.id alice)) as Hself by reflexivity.
  assert (∀ r, r ∈ friend_requests fresh_store →
               ¬ (FriendRequest.from_user r = User.id alice
                  ∧ FriendRequest.to_user r = User.id alice)) as Hnone.
  { intros r Hr. cbn in Hr. by apply elem_of_nil in Hr. }
  split_and!; [apply wf_fresh_store|exact Hu|exact Hlim|exact Hself|].
  apply (self_request_not_guarded fresh_store (post alice "to_user_id" 1));
    [apply wf_fresh_store|exact Hu|exact Hlim|exact Hself|exact Hnone].
Defined.

(** X1: [send_request] never lets an exception escape: it always
    returns a response, with status 201, 400, 429 or 500.  The 404
    answer that the view holds ready is never given. *)
Theorem send_request_status_codes (s : Store) (request : HttpRequest) :
  ∃ resp s', send_request request s = (inr resp, s')
    ∧ status_code resp ∈ [HTTP_201_CREATED; HTTP_400_BAD_REQUEST;
                           HTTP_429_TOO_MANY_REQUESTS;
                           HTTP_500_INTERNAL_SERVER_ERROR]
    ∧ status_code resp ≠ HTTP_404_NOT_FOUND.
Proof.
  destruct (send_request_outcome s request)
    as [[_ ->]|[[_ [msg ->]]|[(_ & B & r & _ & _ & _ & _ & _ & ->)
                             |(_ & B & _ & _ & _ & ->)]]];
    eexists _, _; (split; [reflexivity|]); cbn; (split; [|done]); set_solver.
Qed.

(** X2: [accept_request] and [reject_request] never let an exception
    escape and answer 200 or 500 only, never 404. *)
Theorem status_views_status_codes (s : Store) (request : HttpRequest) :
  (∃ resp s', accept_request request s = (inr resp, s')
     ∧ status_code resp ∈ [HTTP_200_OK; HTTP_500_INTERNAL_SERVER_ERROR]
     ∧ status_code resp ≠ HTTP_404_NOT_FOUND)
  ∧ (∃ resp s', reject_request request s = (inr resp, s')
       ∧ status_code resp ∈ [HTTP_200_OK; HTTP_500_INTERNAL_SERVER_ERROR]
       ∧ status_code resp ≠ HTTP_404_NOT_FOUND).
Proof.
  split.
  - destruct (accept_request_outcome s request) as [[msg ->]|(r & _ & _ & _ & ->)];
      eexists _, _; (split; [reflexivity|]); cbn; (split; [|done]); set_solver.
  - destruct (reject_request_outcome s request) as [[msg ->]|(r & _ & _ & _ & ->)];
      eexists _, _; (split; [reflexivity|]); cbn; (split; [|done]); set_solver.
Qed.

(** X3: [send_request] writes to the database exactly when it answers
    201: with any other status the store is the one it started from, and
    with 201 one pending request from the caller to the resolved
    recipient has been appended, carrying the next primary key, and the
    response body is that request. *)
Theorem send_request_writes_on_201 (s s' : Store) (request : HttpRequest)
    (resp : Response) :
  send_request request s = (inr resp, s') →
  (status_code resp ≠ HTTP_201_CREATED → s' = s)
  ∧ (status_code resp = HTTP_201_CREATED →
     ∃ B, B ∈ users s
          ∧ data request !! "to_user_id" = Some (User.id B)
          ∧ body resp
            = FriendRequestData
                (FriendRequest.mk (next_id s) (User.id (user request))
                                  (User.id B) pending (clock s))
          ∧ s' = created s (User.id (user request)) (User.id B)).
Proof.
  intros Hrun.
  destruct (send_request_outcome s request)
    as [[_ Heq]|[[_ [msg Heq]]|[(_ & B & r & _ & _ & _ & _ & _ & Heq)
                               |(_ & B & HB & Hto & _ & Heq)]]];
    rewrite Heq in Hrun; simplify_eq; cbn; split; try done.
  intros _. by exists B.
Qed.

Lemma send_request_writes_on_201_witness :
  send_request (post alice "to_user_id" 2) sent_store
  = (inr (mkResponse (Error "Friend request already sent")
                     HTTP_400_BAD_REQUEST), sent_store)
  ∧ (status_code (mkResponse (Error "Friend request already sent")
                             HTTP_400_BAD_REQUEST) ≠ HTTP_201_CREATED →
     sent_store = sent_store).
Proof.
  assert (send_request (post alice "to_user_id" 2) sent_store
          = (inr (mkResponse (Error "Friend request already sent")
                             HTTP_400_BAD_REQUEST), sent_store)) as Hrun
    by (vm_compute; reflexivity).
  split; [exact Hrun|].
  apply (send_request_writes_on_201 sent_store sent_store
           (post alice "to_user_id" 2) _ Hrun).
Defined.

(** X4: [accept_request] and [reject_request] touch nothing but the
    status of the request they are given: the user table, the key
    sequence and the number of requests stay, every request keeps its
    id, its two users and its timestamp, and a request whose id is not
    the one in the request data is left exactly as it was. *)
Theorem status_views_touch_one_status (s s' : Store) (request : HttpRequest) :
  s' = (accept_request request s).2 ∨ s' = (reject_request request s).2 →
  users s' = users s ∧ next_id s' = next_id s
  ∧ Forall2 (λ r r',
       FriendRequest.id r' = FriendRequest.id r
       ∧ FriendRequest.from_user r' = FriendRequest.from_user r
       ∧ FriendRequest.to_user r' = FriendRequest.to_user r
       ∧ FriendRequest.created_at r' = FriendRequest.created_at r
       ∧ (data request !! "request_id" ≠ Some (FriendRequest.id r) → r' = r))
      (friend_requests s) (friend_requests s').
Proof.
  intros Hs'.
  assert (s' = s
          ∨ ∃ v r, r ∈ friend_requests s
                   ∧ data request !! "request_id" = Some (FriendRequest.id r)
                   ∧ (∀ x, x ∈ friend_requests s →
                           FriendRequest.id x = FriendRequest.id r → x = r)
                   ∧ s' = with_status v r s)
    as [->|(v & r & Hr & Hid & Honly & ->)].
  { destruct Hs' as [->| ->].
    - destruct (accept_request_outcome s request)
        as [[msg ->]|(r & ? & ? & ? & ->)]; [by left|right; eauto 10].
    - destruct (reject_request_outcome s request)
        as [[msg ->]|(r & ? & ? & ? & ->)]; [by left|right; eauto 10]. }
  - split_and!; [done..|]. apply Forall_Forall2_diag, Forall_forall. done.
  - split_and!; [done..|]. cbn. apply Forall2_fmap_r.
    apply Forall_Forall2_diag, Forall_forall. intros x Hx.
    unfold compose. cbn beta.
    destruct (decide (FriendRequest.id x = FriendRequest.id r)) as [Hsame|Hne].
    + rewrite (Honly x Hx Hsame). cbn.
      by split_and!.
    + done.
Qed.

Lemma status_views_touch_one_status_witness :
  (with_status accepted (FriendRequest.mk 1 1 2 pending 0) sent_store
   = (accept_request (post bob "request_id" 1) sent_store).2
   ∨ with_status accepted (FriendRequest.mk 1 1 2 pending 0) sent_store
     = (reject_request (post bob "request_id" 1) sent_store).2)
  ∧ users (with_status accepted (FriendRequest.mk 1 1 2 pending 0) sent_store)
    = users sent_store.
Proof.
  assert (with_status accepted (FriendRequest.mk 1 1 2 pending 0) sent_store
          = (accept_request (post bob "request_id" 1) sent_store).2) as Hrun
    by (vm_compute; reflexivity).
  split; [left; exact Hrun|].
  apply (status_views_touch_one_status sent_store _ (post bob "request_id" 1)
           (or_introl Hrun)).
Defined.

(** ** Missing fields *)

(** X5: a [send_request] whose body has no [to_user_id], from a caller
    under the rate limit, is answered 500 with the text of the [Http404]
    that the lookup of [id=None] raises; nothing is stored. *)
Theorem send_request_missing_field (s : Store) (request : HttpRequest) :
  data request !! "to_user_id" = None →
  (length (pending_outgoing s (user request)) < 3)%nat →
  send_request request s
  = (inr (mkResponse (Error "No User matches the given query.")
                     HTTP_500_INTERNAL_SERVER_ERROR), s).
Proof.
  intros Hmissing Hlim. apply send_request_unresolved; [done|].
  intros u _. by rewrite Hmissing.
Qed.

Lemma send_request_missing_field_witness :
  data (mkRequest alice ∅) !! "to_user_id" = None
  ∧ (length (pending_outgoing fresh_store alice) < 3)%nat
  ∧ send_request (mkRequest alice ∅) fresh_store
    = (inr (mkResponse (Error "No User matches the given query.")
                       HTTP_500_INTERNAL_SERVER_ERROR), fresh_store).
Proof.
  assert (data (mkRequest alice ∅) !! "to_user_id" = None) as Hmissing
    by reflexivity.
  assert (length (pending_outgoing fresh_store alice) < 3)%nat as Hlim
    by (vm_compute; lia).
  split_and!; [exact Hmissing|exact Hlim|].
  exact (send_request_missing_field fresh_store (mkRequest alice ∅)
           Hmissing Hlim).
Defined.

(** X6: an [accept_request] or [reject_request] whose body has no
    [request_id] is answered 500 with the text of the [Http404]; no
    request changes. *)
Theorem status_views_missing_field (s : Store) (request : HttpRequest) :
  data request !! "request_id" = None →
  accept_request request s
  = (inr (mkResponse (Error "No FriendRequest matches the given query.")
                     HTTP_500_INTERNAL_SERVER_ERROR), s)
  ∧ reject_request request s
    = (inr (mkResponse (Error "No FriendRequest matches the given query.")
                       HTTP_500_INTERNAL_SERVER_ERROR), s).
Proof.
  intros Hmissing.
  split; [apply accept_request_unresolved|apply reject_request_unresolved];
    intros r _; by rewrite Hmissing.
Qed.

Lemma status_views_missing_field_witness :
  data (mkRequest bob ∅) !! "request_id" = None
  ∧ accept_request (mkRequest bob ∅) sent_store
    = (inr (mkResponse (Error "No FriendRequest matches the given query.")
                       HTTP_500_INTERNAL_SERVER_ERROR), sent_store).
Proof.
  assert (data (mkRequest bob ∅) !! "request_id" = None) as Hmissing
    by reflexivity.
  split; [exact Hmissing|].
  apply (status_views_missing_field sent_store (mkRequest bob ∅) Hmissing).
Defined.

(** ** Invariants along runs of the service *)

(** The ways one step can change the store. *)
Lemma step_cases (s s' : Store) :
  step s s' →
  (∃ t, s' = mkStore (users s) (friend_requests s) (next_id s) t)
  ∨ (∃ request B,
        (length (pending_outgoing s (user request)) < 3)%nat
        ∧ B ∈ users s
        ∧ (∀ r, r ∈ friend_requests s →
                ¬ (FriendRequest.from_user r = User.id (user request)
                   ∧ FriendRequest.to_user r = User.id B))
        ∧ s' = created s (User.id (user request)) (User.id B))
  ∨ (∃ v r, v ≠ pending
        ∧ r ∈ friend_requests s
        ∧ (∀ x, x ∈ friend_requests s →
                FriendRequest.id x = FriendRequest.id r → x = r)
        ∧ s' = with_status v r s).
Proof.
  assert (∃ t, s = mkStore (users s) (friend_requests s) (next_id s) t) as Hsame.
  { exists (clock s). by destruct s. }
  intros [request|request|request|pq request|pq request|t].
  - destruct (send_request_outcome s request)
      as [[_ ->]|[[_ [msg ->]]|[(_ & B & r & _ & _ & _ & _ & _ & ->)
                               |(Hlim & B & HB & _ & Hnone & ->)]]];
      try by left.
    right. left. by exists request, B.
  - destruct (accept_request_outcome s request)
      as [[msg ->]|(r & Hr & _ & Honly & ->)]; [by left|].
    right. right. by exists accepted, r.
  - destruct (reject_request_outcome s request)
      as [[msg ->]|(r & Hr & _ & Honly & ->)]; [by left|].
    right. right. by exists rejected, r.
  - rewrite list_friends_store. by left.
  - rewrite list_pending_requests_store. by left.
  - left. by exists t.
Qed.

(** X7: along every run from a fresh deployment, the primary keys of
    the stored requests stay pairwise distinct and no two stored requests
    have the same sender and the same recipient. *)
Theorem reachable_requests_unique (s0 s : Store) :
  initial s0 → rtc step s0 s →
  NoDup (FriendRequest.id <$> friend_requests s)
  ∧ NoDup ((λ r, (FriendRequest.from_user r, FriendRequest.to_user r))
             <$> friend_requests s).
Proof.
  intros Hinit Hrun. destruct (wf_reachable s0 s Hinit Hrun) as [_ ? _ ?].
  done.
Qed.

Lemma rtc_step_busy_store : rtc step fresh_store busy_store.
Proof.
  unfold busy_store. repeat (eapply rtc_r; [|apply step_send]). apply rtc_refl.
Qed.

Lemma reachable_requests_unique_witness :
  initial fresh_store ∧ rtc step fresh_store busy_store
  ∧ NoDup (FriendRequest.id <$> friend_requests busy_store).
Proof.
  split_and!; [apply initial_fresh_store|apply rtc_step_busy_store|].
  apply (reachable_requests_unique fresh_store busy_store
           initial_fresh_store rtc_step_busy_store).
Defined.

(** A status change to a value other than pending cannot raise the
    number of pending requests of a user. *)
Lemma pending_outgoing_with_status_le (v : Status) (r : FriendRequest.t)
    (s : Store) (u : User.t) :
  v ≠ pending →
  (length (pending_outgoing (with_status v r s) u)
   ≤ length (pending_outgoing s u))%nat.
Proof.
  intros Hv. unfold pending_outgoing, with_status. cbn.
  induction (friend_requests s) as [|x l IH]; [done|].
  rewrite fmap_cons, !filter_cons.
  destruct (decide (FriendRequest.id x = FriendRequest.id r)) as [Hx|Hx].
  - rewrite (decide_False (P := _ ∧ FriendRequest.status
                                      (FriendRequest.set_status v r) = pending)).
    + case_decide; cbn; lia.
    + cbn. intros [_ ?]. by destruct Hv.
  - case_decide; cbn; lia.
Qed.

Lemma pending_outgoing_created (s : Store) (from to : Z) (u : User.t) :
  pending_outgoing (created s from to) u
  = pending_outgoing s u
    ++ (if decide (from = User.id u) then [new_request s from to] else []).
Proof.
  unfold pending_outgoing, created. cbn. rewrite filter_app. f_equal.
  rewrite filter_cons, filter_nil. cbn.
  destruct (decide (from = User.id u)) as [Hu|Hu].
  - by rewrite decide_True.
  - rewrite decide_False; [done|]. by intros [? _].
Qed.

Lemma within_limit_step (s s' : Store) :
  within_limit s → step s s' → within_limit s'.
Proof.
  intros Hinv Hstep u.
  destruct (step_cases s s' Hstep)
    as [[t ->]|[(request & B & Hlim & _ & _ & ->)|(v & r & Hv & _ & _ & ->)]].
  - apply Hinv.
  - rewrite pending_outgoing_created, length_app.
    destruct (decide (User.id (user request) = User.id u)) as [Hu|Hu]; cbn.
    + assert (pending_outgoing s u = pending_outgoing s (user request)) as ->
        by (unfold pending_outgoing; by rewrite Hu).
      lia.
    + specialize (Hinv u). lia.
  - etrans; [by apply pending_outgoing_with_status_le|apply Hinv].
Qed.

Lemma within_limit_rtc (s s' : Store) :
  within_limit s → rtc step s s' → within_limit s'.
Proof.
  intros Hinv Hrun. induction Hrun as [|s1 s2 s3 Hstep _ IH]; [done|].
  apply IH. by eapply within_limit_step.
Qed.

(** X8: along every run from a fresh deployment, no user ever has more
    than three pending outgoing requests stored. *)
Theorem reachable_within_limit (s0 s : Store) (u : User.t) :
  initial s0 → rtc step s0 s →
  (length (pending_outgoing s u) ≤ 3)%nat.
Proof.
  intros [_ Hempty] Hrun. apply (within_limit_rtc s0 s); [|done].
  intros u0. unfold pending_outgoing. rewrite Hempty. cbn. lia.
Qed.

Lemma reachable_within_limit_witness :
  initial fresh_store ∧ rtc step fresh_store busy_store
  ∧ (length (pending_outgoing busy_store alice) ≤ 3)%nat.
Proof.
  split_and!; [apply initial_fresh_store|apply rtc_step_busy_store|].
  apply (reachable_within_limit fresh_store busy_store alice
           initial_fresh_store rtc_step_busy_store).
Defined.

(** A stored request survives a step with its id, its two users and its
    timestamp, and does not go back to pending. *)
Lemma step_keeps_request (s s' : Store) (r : FriendRequest.t) :
  step s s' → r ∈ friend_requests s →
  ∃ r', r' ∈ friend_requests s'
        ∧ FriendRequest.id r' = FriendRequest.id r
        ∧ FriendRequest.from_user r' = FriendRequest.from_user r
        ∧ FriendRequest.to_user r' = FriendRequest.to_user r
        ∧ FriendRequest.created_at r' = FriendRequest.created_at r
        ∧ (FriendRequest.status r ≠ pending → FriendRequest.status r' ≠ pending).
Proof.
  intros Hstep Hr.
  destruct (step_cases s s' Hstep)
    as [[t ->]|[(request & B & _ & _ & _ & ->)|(v & r0 & Hv & _ & Honly & ->)]].
  - by exists r.
  - exists r. split_and!; try done. cbn. apply elem_of_app. by left.
  - destruct (decide (FriendRequest.id r = FriendRequest.id r0)) as [Hsame|Hne].
    + rewrite (Honly r Hr Hsame). exists (FriendRequest.set_status v r0).
      split_and!; try done. apply with_status_stored.
      by rewrite <- (Honly r Hr Hsame).
    + exists r. split_and!; try done. by apply with_status_other.
Qed.

Lemma step_keeps_users (s s' : Store) :
  step s s' → users s' = users s ∧ next_id s ≤ next_id s'.
Proof.
  intros Hstep.
  destruct (step_cases s s' Hstep)
    as [[t ->]|[(request & B & _ & _ & _ & ->)|(v & r0 & _ & _ & _ & ->)]];
    cbn; split; done || lia.
Qed.

(** X9: no run of the service deletes anything: the user table stays as
    it is, the key sequence never goes back, and every stored request is
    still stored afterwards with the same id, sender, recipient and
    timestamp. *)
Theorem run_keeps_requests (s s' : Store) :
  rtc step s s' →
  users s' = users s
  ∧ next_id s ≤ next_id s'
  ∧ ∀ r, r ∈ friend_requests s →
      ∃ r', r' ∈ friend_requests s'
            ∧ FriendRequest.id r' = FriendRequest.id r
            ∧ FriendRequest.from_user r' = FriendRequest.from_user r
            ∧ FriendRequest.to_user r' = FriendRequest.to_user r
            ∧ FriendRequest.created_at r' = FriendRequest.created_at r.
Proof.
  intros Hrun. induction Hrun as [s|s1 s2 s3 Hstep _ (IHu & IHn & IHr)].
  - split_and!; [done|lia|]. intros r Hr. by exists r.
  - destruct (step_keeps_users s1 s2 Hstep) as [Hu Hn].
    split_and!; [congruence|lia|].
    intros r Hr.
    destruct (step_keeps_request s1 s2 r Hstep Hr)
      as (r2 & Hr2 & Hid & Hfrom & Hto & Hat & _).
    destruct (IHr r2 Hr2) as (r3 & Hr3 & Hid3 & Hfrom3 & Hto3 & Hat3).
    exists r3. split_and!; congruence.
Qed.

Lemma run_keeps_requests_witness :
  rtc step sent_store
    (reject_request (post bob "request_id" 1) sent_store).2
  ∧ users (reject_request (post bob "request_id" 1) sent_store).2
    = users sent_store.
Proof.
  assert (rtc step sent_store
            (reject_request (post bob "request_id" 1) sent_store).2) as Hrun
    by (apply rtc_once, step_reject).
  split; [exact Hrun|]. apply (run_keeps_requests _ _ Hrun).
Defined.

Lemma wf_rtc (s s' : Store) : well_formed s → rtc step s s' → well_formed s'.
Proof.
  intros Hwf Hrun. induction Hrun as [|s1 s2 s3 Hstep _ IH]; [done|].
  apply IH. by eapply wf_step.
Qed.

(** X10: a decision is never undone into pending: once a stored request
    is accepted or rejected, the request with that id is not pending in
    any store a run of the service leads to. *)
Theorem decided_never_pending_again (s s' : Store) (r r' : FriendRequest.t) :
  well_formed s → rtc step s s' →
  r ∈ friend_requests s → FriendRequest.status r ≠ pending →
  r' ∈ friend_requests s' → FriendRequest.id r' = FriendRequest.id r →
  FriendRequest.status r' ≠ pending.
Proof.
  intros Hwf Hrun Hr Hst Hr' Hid.
  assert (∃ r2, r2 ∈ friend_requests s'
                ∧ FriendRequest.id r2 = FriendRequest.id r
                ∧ FriendRequest.status r2 ≠ pending) as (r2 & Hr2 & Hid2 & Hst2).
  { clear Hr' Hid Hwf. revert r Hr Hst.
    induction Hrun as [s|s1 s2 s3 Hstep _ IH]; intros r Hr Hst.
    - by exists r.
    - destruct (step_keeps_request s1 s2 r Hstep Hr)
        as (r2 & Hr2 & Hid2 & _ & _ & _ & Hst2).
      destruct (IH r2 Hr2 (Hst2 Hst)) as (r3 & Hr3 & Hid3 & Hst3).
      exists r3. split_and!; [done|congruence|done]. }
  assert (r' = r2) as ->; [|done].
  apply (unique_key_inj FriendRequest.id (friend_requests s'));
    [apply (wf_rtc s s' Hwf Hrun)|done|done|congruence].
Qed.

Lemma decided_never_pending_again_witness :
  well_formed (accept_request (post bob "request_id" 1) sent_store).2
  ∧ rtc step (accept_request (post bob "request_id" 1) sent_store).2
      (reject_request (post carol "request_id" 1)
         (accept_request (post bob "request_id" 1) sent_store).2).2
  ∧ FriendRequest.mk 1 1 2 accepted 0
    ∈ friend_requests (accept_request (post bob "request_id" 1) sent_store).2
  ∧ FriendRequest.status (FriendRequest.mk 1 1 2 accepted 0) ≠ pending
  ∧ FriendRequest.mk 1 1 2 rejected 0
    ∈ friend_requests
        (reject_request (post carol "request_id" 1)
           (accept_request (post bob "request_id" 1) sent_store).2).2
  ∧ FriendRequest.status (FriendRequest.mk 1 1 2 rejected 0) ≠ pending.
Proof.
  assert (rtc step (accept_request (post bob "request_id" 1) sent_store).2
            (reject_request (post carol "request_id" 1)
               (accept_request (post bob "request_id" 1) sent_store).2).2)
    as Hrun by (apply rtc_once, step_reject).
  assert (well_formed (accept_request (post bob "request_id" 1) sent_store).2)
    as Hwf by (apply (wf_step sent_store), step_accept; apply wf_sent_store).
  assert (FriendRequest.mk 1 1 2 accepted 0
          ∈ friend_requests
              (accept_request (post bob "request_id" 1) sent_store).2) as Hr
    by (apply (bool_decide_unpack _); vm_compute; exact I).
  assert (FriendRequest.mk 1 1 2 rejected 0
          ∈ friend_requests
              (reject_request (post carol "request_id" 1)
                 (accept_request (post bob "request_id" 1) sent_store).2).2)
    as Hr' by (apply (bool_decide_unpack _); vm_compute; exact I).
  assert (FriendRequest.status (FriendRequest.mk 1 1 2 accepted 0) ≠ pending)
    as Hst by (cbn; discriminate).
  split_and!; [exact Hwf|exact Hrun|exact Hr|exact Hst|exact Hr'|].
  exact (decided_never_pending_again _ _ _ _ Hwf Hrun Hr Hst Hr' eq_refl).
Defined.

(** ** The friends list *)

(** X11: friendship as [list_friends] computes it is symmetric: for two
    users of the user table, B is listed among the friends of A exactly
    when A is listed among the friends of B. *)
Theorem friends_symmetric (s : Store) (A B : User.t) :
  A ∈ users s → B ∈ users s →
  (B ∈ friends s A ↔ A ∈ friends s B).
Proof.
  intros HA HB. rewrite !friends_elem. split.
  - intros (_ & r & Hr & Hst & Hdir). split; [done|].
    exists r. split_and!; [done..|]. tauto.
  - intros (_ & r & Hr & Hst & Hdir). split; [done|].
    exists r. split_and!; [done..|]. tauto.
Qed.

Lemma friends_symmetric_witness :
  alice ∈ users crowded_store ∧ bob ∈ users crowded_store
  ∧ bob ∈ friends crowded_store alice
  ∧ alice ∈ friends crowded_store bob.
Proof.
  assert (alice ∈ users crowded_store) as HA
    by (apply (bool_decide_unpack _); vm_compute; exact I).
  assert (bob ∈ users crowded_store) as HB
    by (apply (bool_decide_unpack _); vm_compute; exact I).
  assert (bob ∈ friends crowded_store alice) as Hfriend
    by (apply (bool_decide_unpack _); vm_compute; exact I).
  split_and!; [exact HA|exact HB|exact Hfriend|].
  by apply (friends_symmetric crowded_store alice bob HA HB).
Defined.

(** X12: rejecting a request ends the friendship it carried: after
    [reject_request] on the stored request from A to B, and unless the
    request from B to A is accepted, neither user is listed among the
    friends of the other, even when the request had been accepted. *)
Theorem friends_after_reject (s : Store) (request : HttpRequest)
    (A B : User.t) (r : FriendRequest.t) :
  well_formed s →
  r ∈ friend_requests s →
  FriendRequest.from_user r = User.id A →
  FriendRequest.to_user r = User.id B →
  data request !! "request_id" = Some (FriendRequest.id r) →
  (∀ r2, r2 ∈ friend_requests s →
         FriendRequest.from_user r2 = User.id B →
         FriendRequest.to_user r2 = User.id A →
         FriendRequest.id r2 ≠ FriendRequest.id r →
         FriendRequest.status r2 ≠ accepted) →
  (B ∉ friends (reject_request request s).2 A)
  ∧ (A ∉ friends (reject_request request s).2 B).
Proof.
  intros Hwf Hr Hfrom Hto Hid Hback.
  rewrite (reject_request_stored s request r) by done. cbn [snd].
  assert (∀ r', r' ∈ friend_requests (with_status rejected r s) →
                FriendRequest.status r' = accepted →
                ¬ ((FriendRequest.from_user r' = User.id A
                    ∧ FriendRequest.to_user r' = User.id B)
                   ∨ (FriendRequest.from_user r' = User.id B
                      ∧ FriendRequest.to_user r' = User.id A))) as Hnone.
  { intros r' Hr' Hst Hdir.
    apply with_status_elem in Hr' as [->|[Hr' Hne]]; [done|].
    destruct Hdir as [[Hf Ht]|[Hf Ht]].
    - apply Hne. f_equal.
      apply (unique_key_inj pair_of (friend_requests s));
        [apply Hwf|done|done|]. unfold pair_of. congruence.
    - by apply (Hback r'). }
  split; intros Hin; apply friends_elem in Hin as (_ & r' & Hr' & Hst & Hdir);
    apply (Hnone r' Hr' Hst); tauto.
Qed.

Lemma friends_after_reject_witness :
  well_formed (accept_request (post bob "request_id" 1) sent_store).2
  ∧ FriendRequest.mk 1 1 2 accepted 0
    ∈ friend_requests (accept_request (post bob "request_id" 1) sent_store).2
  ∧ data (post bob "request_id" 1) !! "request_id" = Some 1
  ∧ bob ∈ friends (accept_request (post bob "request_id" 1) sent_store).2 alice
  ∧ bob ∉ friends
            (reject_request (post bob "request_id" 1)
               (accept_request (post bob "request_id" 1) sent_store).2).2
            alice.
Proof.
  assert (well_formed (accept_request (post bob "request_id" 1) sent_store).2)
    as Hwf by (apply (wf_step sent_store), step_accept; apply wf_sent_store).
  assert (FriendRequest.mk 1 1 2 accepted 0
          ∈ friend_requests
              (accept_request (post bob "request_id" 1) sent_store).2) as Hr
    by (apply (bool_decide_unpack _); vm_compute; exact I).
  assert (data (post bob "request_id" 1) !! "request_id" = Some 1) as Hid
    by reflexivity.
  assert (∀ r2, r2 ∈ friend_requests
                       (accept_request (post bob "request_id" 1) sent_store).2 →
                FriendRequest.from_user r2 = User.id bob →
                FriendRequest.to_user r2 = User.id alice →
                FriendRequest.id r2
                ≠ FriendRequest.id (FriendRequest.mk 1 1 2 accepted 0) →
                FriendRequest.status r2 ≠ accepted) as Hback.
  { intros r2 Hr2.
    change (r2 ∈ [FriendRequest.mk 1 1 2 accepted 0]) in Hr2.
    apply list_elem_of_singleton in Hr2 as ->. cbn. done. }
  split_and!; [exact Hwf|exact Hr|exact Hid| |].
  - apply (bool_decide_unpack _). vm_compute. exact I.
  - apply (friends_after_reject _ (post bob "request_id" 1) alice bob
             (FriendRequest.mk 1 1 2 accepted 0) Hwf Hr eq_refl eq_refl Hid
             Hback).
Defined.

(** Counting the copies of an element that a nested query produces. *)
Lemma length_filter_bind_ge {A B} (P : B → Prop) `{!∀ y, Decision (P y)}
    (f : A → list B) (l : list A) (x : A) :
  x ∈ l →
  (length (filter P (f x)) ≤ length (filter P (l ≫= f)))%nat.
Proof.
  induction l as [|y l IH]; intros Hx.
  { by apply elem_of_nil in Hx. }
  rewrite bind_cons, filter_app, length_app.
  apply elem_of_cons in Hx as [->|Hx]; [lia|].
  specialize (IH Hx). lia.
Qed.

Lemma length_filter_bind_const {A B} (f : A → list B) (l : list A) (b : B)
    `{!EqDecision B} :
  (∀ x, x ∈ l → f x = [b]) →
  length (filter (λ y, y = b) (l ≫= f)) = length l.
Proof.
  induction l as [|y l IH]; intros Hf; [done|].
  rewrite bind_cons, filter_app, length_app, Hf by left.
  rewrite filter_cons_True by done. cbn. f_equal.
  apply IH. intros x Hx. apply Hf. by right.
Qed.

Lemma length_left_outer_join {A} (related : list A) :
  (length related ≤ length (left_outer_join related))%nat.
Proof. destruct related; cbn; [lia|]. rewrite length_fmap. lia. Qed.

(** X13: the friends list repeats users.  A user U whose request to [u]
    is accepted is listed among the friends of [u] at least once for
    every request U has received, from anybody and in any status. *)
Theorem friends_listed_per_received (s : Store) (u U : User.t)
    (r : FriendRequest.t) :
  U ∈ users s →
  r ∈ friend_requests s →
  FriendRequest.from_user r = User.id U →
  FriendRequest.to_user r = User.id u →
  FriendRequest.status r = accepted →
  (length (filter (λ q, FriendRequest.to_user q = User.id U)
                  (friend_requests s))
   ≤ listed s u U)%nat.
Proof.
  intros HU Hr Hfrom Hto Hst. unfold listed, friends.
  etrans; [|apply (length_filter_bind_ge _ _ _ U HU)].
  etrans; [|apply (length_filter_bind_ge _ _ _ (Some r))].
  - cbn beta. rewrite length_filter_bind_const.
    + apply length_left_outer_join.
    + intros received _. rewrite decide_True; [done|]. by left.
  - apply left_outer_join_Some, list_elem_of_filter. done.
Qed.

Lemma friends_listed_per_received_witness :
  bob ∈ users crowded_store
  ∧ FriendRequest.mk 1 2 1 accepted 0 ∈ friend_requests crowded_store
  ∧ (2 ≤ listed crowded_store alice bob)%nat
  ∧ friends crowded_store alice = [bob; bob].
Proof.
  assert (bob ∈ users crowded_store) as HU
    by (apply (bool_decide_unpack _); vm_compute; exact I).
  assert (FriendRequest.mk 1 2 1 accepted 0 ∈ friend_requests crowded_store)
    as Hr by (apply (bool_decide_unpack _); vm_compute; exact I).
  split_and!; [exact HU|exact Hr| |vm_compute; reflexivity].
  exact (friends_listed_per_received crowded_store alice bob
           (FriendRequest.mk 1 2 1 accepted 0) HU Hr eq_refl eq_refl eq_refl).
Defined.

(** ** The inbox after a send, and the list views *)

(** X14: after a send that is answered 201, the recipient's pending
    inbox holds the requests it held before and the new request, and the
    pending inbox of every other user holds what it held before (as
    collections of rows: no order is stated). *)
Theorem inbox_after_send (s : Store) (request : HttpRequest) (B C : User.t) :
  well_formed s →
  (length (pending_outgoing s (user request)) < 3)%nat →
  B ∈ users s →
  data request !! "to_user_id" = Some (User.id B) →
  (∀ r, r ∈ friend_requests s →
        ¬ (FriendRequest.from_user r = User.id (user request)
           ∧ FriendRequest.to_user r = User.id B)) →
  pending_requests (send_request request s).2 C
  ≡ₚ (if decide (User.id B = User.id C)
      then FriendRequest.mk (next_id s) (User.id (user request))
                            (User.id B) pending (clock s)
           :: pending_requests s C
      else pending_requests s C).
Proof.
  intros Hwf Hlim HB Hto Hnone.
  rewrite (send_request_created s request B) by done. cbn [snd].
  unfold pending_requests, created. cbn. rewrite filter_app.
  rewrite filter_cons, filter_nil. cbn.
  destruct (decide (User.id B = User.id C)) as [HC|HC].
  - rewrite decide_True by done. by rewrite <- Permutation_cons_append.
  - rewrite decide_False; [by rewrite app_nil_r|]. by intros [? _].
Qed.

Lemma inbox_after_send_witness :
  well_formed fresh_store
  ∧ (length (pending_outgoing fresh_store alice) < 3)%nat
  ∧ bob ∈ users fresh_store
  ∧ data (post alice "to_user_id" 2) !! "to_user_id" = Some (User.id bob)
  ∧ pending_requests (send_request (post alice "to_user_id" 2) fresh_store).2
      bob
    ≡ₚ [FriendRequest.mk 1 1 2 pending 0].
Proof.
  assert (length (pending_outgoing fresh_store alice) < 3)%nat as Hlim
    by (vm_compute; lia).
  assert (bob ∈ users fresh_store) as HB
    by (apply (bool_decide_unpack _); vm_compute; exact I).
  assert (data (post alice "to_user_id" 2) !! "to_user_id"
          = Some (User.id bob)) as Hto by reflexivity.
  assert (∀ r, r ∈ friend_requests fresh_store →
               ¬ (FriendRequest.from_user r = User.id alice
                  ∧ FriendRequest.to_user r = User.id bob)) as Hnone.
  { intros r Hr. cbn in Hr. by apply elem_of_nil in Hr. }
  split_and!; [apply wf_fresh_store|exact Hlim|exact HB|exact Hto|].
  apply (inbox_after_send fresh_store (post alice "to_user_id" 2) bob bob
           wf_fresh_store Hlim HB Hto Hnone).
Defined.

(** X15: with any paginator, [list_friends] and [list_pending_requests]
    leave the store as it is, never let an exception escape, and answer
    200, or 500 exactly when the paginator raises. *)
Theorem list_views_read_only
    (paginate_queryset :
       ∀ A : Type, HttpRequest → list A → Exception + option (list A))
    (s : Store) (request : HttpRequest) :
  ((list_friends paginate_queryset request s).2 = s
   ∧ ∃ resp, (list_friends paginate_queryset request s).1 = inr resp
       ∧ status_code resp ∈ [HTTP_200_OK; HTTP_500_INTERNAL_SERVER_ERROR]
       ∧ (status_code resp = HTTP_500_INTERNAL_SERVER_ERROR
          ↔ ∃ e, paginate_queryset _ request (friends s (user request))
                 = inl e))
  ∧ ((list_pending_requests paginate_queryset request s).2 = s
     ∧ ∃ resp,
         (list_pending_requests paginate_queryset request s).1 = inr resp
         ∧ status_code resp ∈ [HTTP_200_OK; HTTP_500_INTERNAL_SERVER_ERROR]
         ∧ (status_code resp = HTTP_500_INTERNAL_SERVER_ERROR
            ↔ ∃ e, paginate_queryset _ request
                     (pending_requests s (user request))
                   = inl e)).
Proof.
  split.
  - split; [apply list_friends_store|].
    unfold list_friends. run_view.
    destruct (paginate_queryset _ _ _) as [e|[page|]]; cbn;
      eexists; (split; [reflexivity|]); cbn; (split; [set_solver|]).
    + split; [eauto|done].
    + split; [done|]. by intros [e ?].
    + split; [done|]. by intros [e ?].
  - split; [apply list_pending_requests_store|].
    unfold list_pending_requests. run_view.
    destruct (paginate_queryset _ _ _) as [e|[page|]]; cbn;
      eexists; (split; [reflexivity|]); cbn; (split; [set_solver|]).
    + split; [eauto|done].
    + split; [done|]. by intros [e ?].
    + split; [done|]. by intros [e ?].
Qed.

(** ** Searching users *)

Lemma append_nil (b : string) : EmptyString +:+ b = b.
Proof. reflexivity. Qed.

Lemma append_cons (x : Ascii.ascii) (a b : string) :
  String x a +:+ b = String x (a +:+ b).
Proof. reflexivity. Qed.

Lemma append_assoc (a b c : string) : (a +:+ b) +:+ c = a +:+ b +:+ c.
Proof.
  induction a as [|x a IH]; [done|]. rewrite !append_cons. by f_equal.
Qed.

Lemma append_empty_r (a : string) : a +:+ EmptyString = a.
Proof.
  induction a as [|x a IH]; [done|]. rewrite append_cons. by f_equal.
Qed.

Lemma prefix_spec (p s : string) :
  String.prefix p s = true ↔ ∃ t, s = p +:+ t.
Proof.
  revert s. induction p as [|c p IH]; intros s.
  - split; [|by destruct s]. intros _. by exists s.
  - destruct s as [|d s].
    + split; [discriminate|]. intros [t Ht]. by rewrite append_cons in Ht.
    + change (String.prefix (String c p) (String d s))
        with (if Ascii.ascii_dec c d then String.prefix p s else false).
      destruct (Ascii.ascii_dec c d) as [->|Hne].
      * rewrite IH. split; intros [t Ht]; exists t.
        -- rewrite append_cons. by f_equal.
        -- rewrite append_cons in Ht. congruence.
      * split; [done|]. intros [t Ht]. rewrite append_cons in Ht. congruence.
Qed.

(** [contains] decides the occurrence of a contiguous substring. *)
Lemma contains_spec (needle hay : string) :
  contains needle hay = true ↔ ∃ before after, hay = before +:+ needle +:+ after.
Proof.
  induction hay as [|c hay IH].
  - change (contains needle EmptyString)
      with (String.prefix needle EmptyString || false).
    rewrite orb_false_r, prefix_spec. split.
    + intros [t Ht]. by exists EmptyString, t.
    + intros (before & after & Heq). destruct before as [|d before].
      * by exists after.
      * by rewrite append_cons in Heq.
  - change (contains needle (String c hay))
      with (String.prefix needle (String c hay) || contains needle hay).
    rewrite orb_true_iff, IH, prefix_spec. split.
    + intros [[t Ht]|(before & after & Heq)].
      * by exists EmptyString, t.
      * exists (String c before), after. rewrite append_cons. by f_equal.
    + intros (before & after & Heq). destruct before as [|d before].
      * left. by exists after.
      * right. exists before, after. rewrite append_cons in Heq. congruence.
Qed.

Lemma icontains_spec (field keyword : string) :
  icontains field keyword = true ↔ occurs keyword field.
Proof. unfold icontains, occurs. apply contains_spec. Qed.

Lemma lower_append (a b : string) : lower (a +:+ b) = lower a +:+ lower b.
Proof.
  induction a as [|x a IH]; [done|].
  rewrite append_cons. cbn [lower]. rewrite append_cons. by f_equal.
Qed.

Lemma occurs_refl (field : string) : occurs field field.
Proof.
  exists EmptyString, EmptyString. by rewrite append_nil, append_empty_r.
Qed.

Lemma lower_empty (k : string) : lower k = EmptyString ↔ k = EmptyString.
Proof. by destruct k. Qed.

(** What [get_queryset] returns, and what it leaves in [self.queryset]. *)
Lemma get_queryset_result (self : UserViewSet.t) :
  (UserViewSet.get_queryset self).1
  = match UserViewSet.query_params self !! "search" with
    | Some keyword =>
        if decide (keyword ≠ "")
        then filter (λ u, icontains (User.email u) keyword
                          || icontains (User.first_name u) keyword
                          || icontains (User.last_name u) keyword)
                    (UserViewSet.queryset self)
        else UserViewSet.queryset self
    | None => UserViewSet.queryset self
    end
  ∧ UserViewSet.queryset (UserViewSet.get_queryset self).2
    = (UserViewSet.get_queryset self).1
  ∧ UserViewSet.query_params (UserViewSet.get_queryset self).2
    = UserViewSet.query_params self.
Proof.
  unfold UserViewSet.get_queryset.
  destruct (UserViewSet.query_params self !! "search") as [keyword|]; [|done].
  by case_decide.
Qed.

Lemma matches_spec (u : User.t) (keyword : string) :
  icontains (User.email u) keyword
  || icontains (User.first_name u) keyword
  || icontains (User.last_name u) keyword
  ↔ occurs keyword (User.email u)
    ∨ occurs keyword (User.first_name u)
    ∨ occurs keyword (User.last_name u).
Proof.
  rewrite !orb_True, !Is_true_true, !icontains_spec. tauto.
Qed.

Lemma occurs_empty (field : string) : occurs EmptyString field.
Proof. exists EmptyString, (lower field). reflexivity. Qed.

(** X16: [get_queryset] returns exactly the users of [self.queryset]
    in whose email, first name or last name the search keyword occurs as
    a contiguous substring, letter case ignored; without a keyword, or
    with the empty one, it returns them all. *)
Theorem search_finds_exactly (self : UserViewSet.t) (u : User.t) :
  u ∈ (UserViewSet.get_queryset self).1
  ↔ u ∈ UserViewSet.queryset self
    ∧ ∀ keyword, UserViewSet.query_params self !! "search" = Some keyword →
        occurs keyword (User.email u)
        ∨ occurs keyword (User.first_name u)
        ∨ occurs keyword (User.last_name u).
Proof.
  destruct (get_queryset_result self) as (-> & _ & _).
  destruct (UserViewSet.query_params self !! "search") as [keyword|].
  - case_decide as Hk.
    + rewrite list_elem_of_filter, matches_spec. split.
      * intros [Hm Hu]. split; [done|]. by intros ? [= <-].
      * intros [Hu Hm]. split; [|done]. by apply Hm.
    + subst keyword. split; [|by intros [? _]].
      intros Hu. split; [done|]. intros ? [= <-]. left. apply occurs_empty.
  - split; [|by intros [? _]]. intros Hu. by split.
Qed.

Lemma StronglySorted_sublist {A} (R : relation A) (l1 l2 : list A) :
  l1 `sublist_of` l2 → StronglySorted R l2 → StronglySorted R l1.
Proof.
  induction 1 as [|x l1 l2 Hsub IH|x l1 l2 Hsub IH]; intros Hsorted.
  - constructor.
  - apply StronglySorted_inv in Hsorted as [Hl2 Hx]. constructor; [by apply IH|].
    apply Forall_forall. intros y Hy. rewrite Forall_forall in Hx.
    by apply Hx, (sublist_subseteq l1 l2).
  - apply StronglySorted_inv in Hsorted as [Hl2 _]. by apply IH.
Qed.

Lemma get_queryset_sublist (self : UserViewSet.t) :
  (UserViewSet.get_queryset self).1 `sublist_of` UserViewSet.queryset self.
Proof.
  destruct (get_queryset_result self) as (-> & _ & _).
  destruct (UserViewSet.query_params self !! "search") as [keyword|]; [|done].
  case_decide; [apply sublist_filter|done].
Qed.

(** X17: [get_queryset] neither reorders nor repeats nor invents rows:
    what it returns is a sublist of [self.queryset], hence in ascending
    order of id whenever [self.queryset] is, and it is [self.queryset]
    itself when the request has no search parameter. *)
Theorem search_results_ordered (self : UserViewSet.t) :
  StronglySorted (λ u v, User.id u ≤ User.id v) (UserViewSet.queryset self) →
  StronglySorted (λ u v, User.id u ≤ User.id v)
    (UserViewSet.get_queryset self).1
  ∧ (UserViewSet.get_queryset self).1 `sublist_of` UserViewSet.queryset self
  ∧ (UserViewSet.get_queryset
       (UserViewSet.mk (UserViewSet.queryset self)
          (delete "search" (UserViewSet.query_params self))
          (UserViewSet.action self) (UserViewSet.stdout self))).1
    = UserViewSet.queryset self.
Proof.
  intros Hsorted. pose proof (get_queryset_sublist self) as Hsub.
  split_and!.
  - by apply (StronglySorted_sublist _ _ _ Hsub).
  - exact Hsub.
  - destruct (get_queryset_result
                (UserViewSet.mk (UserViewSet.queryset self)
                   (delete "search" (UserViewSet.query_params self))
                   (UserViewSet.action self) (UserViewSet.stdout self)))
      as (-> & _ & _).
    cbn [UserViewSet.query_params UserViewSet.queryset].
    by rewrite lookup_delete_eq.
Qed.

Lemma search_results_ordered_witness :
  StronglySorted (λ u v, User.id u ≤ User.id v)
    (UserViewSet.queryset
       (searching (users fresh_store) "example" (Some "list")))
  ∧ StronglySorted (λ u v, User.id u ≤ User.id v)
      (UserViewSet.get_queryset
         (searching (users fresh_store) "example" (Some "list"))).1.
Proof.
  assert (StronglySorted (λ u v, User.id u ≤ User.id v)
            (UserViewSet.queryset
               (searching (users fresh_store) "example" (Some "list"))))
    as Hsorted.
  { cbn. repeat (constructor; [|repeat constructor; cbn; lia]). constructor. }
  split; [exact Hsorted|].
  apply (search_results_ordered
           (searching (users fresh_store) "example" (Some "list")) Hsorted).
Defined.

Lemma filter_twice {A} (P : A → Prop) `{!∀ x, Decision (P x)} (l : list A) :
  filter P (filter P l) = filter P l.
Proof.
  induction l as [|x l IH]; [done|]. rewrite filter_cons.
  case_decide; [|done]. rewrite filter_cons_True by done. by f_equal.
Qed.

(** X18: [get_queryset] stores the narrowed queryset back into
    [self.queryset]; calling it again on the same instance narrows the
    stored queryset once more and returns the same users. *)
Theorem get_queryset_again (self : UserViewSet.t) :
  UserViewSet.queryset (UserViewSet.get_queryset self).2
  = (UserViewSet.get_queryset self).1
  ∧ (UserViewSet.get_queryset (UserViewSet.get_queryset self).2).1
    = (UserViewSet.get_queryset self).1.
Proof.
  destruct (get_queryset_result self) as (Hres & Hq & Hp).
  split; [done|].
  destruct (get_queryset_result (UserViewSet.get_queryset self).2)
    as (-> & _ & _).
  rewrite Hp, Hq, Hres.
  destruct (UserViewSet.query_params self !! "search") as [keyword|]; [|done].
  case_decide; [apply filter_twice|done].
Qed.

(** X19: the search ignores letter case: two keywords that differ only
    in the case of their letters select the same users. *)
Theorem search_ignores_case (queryset : list User.t) (k1 k2 : string)
    (action : option string) :
  lower k1 = lower k2 →
  (UserViewSet.get_queryset (searching queryset k1 action)).1
  = (UserViewSet.get_queryset (searching queryset k2 action)).1.
Proof.
  intros Hlower.
  destruct (get_queryset_result (searching queryset k1 action)) as (-> & _ & _).
  destruct (get_queryset_result (searching queryset k2 action)) as (-> & _ & _).
  unfold searching.
  cbn [UserViewSet.query_params UserViewSet.queryset].
  rewrite !lookup_singleton_eq.
  assert (k1 = "" ↔ k2 = "") as Hempty.
  { rewrite <- (lower_empty k1), <- (lower_empty k2). by rewrite Hlower. }
  repeat case_decide; try tauto.
  apply list_filter_iff. intros u. unfold icontains. by rewrite Hlower.
Qed.

Lemma search_ignores_case_witness :
  lower "ALICE" = lower "alice"
  ∧ (UserViewSet.get_queryset
       (searching (users fresh_store) "ALICE" (Some "list"))).1
    = [alice].
Proof.
  assert (lower "ALICE" = lower "alice") as Hlower by reflexivity.
  split; [exact Hlower|].
  rewrite (search_ignores_case (users fresh_store) "ALICE" "alice"
             (Some "list") Hlower).
  vm_compute. reflexivity.
Defined.

Lemma filter_sublist_mono {A} (P Q : A → Prop) `{!∀ x, Decision (P x)}
    `{!∀ x, Decision (Q x)} (l : list A) :
  (∀ x, P x → Q x) → filter P l `sublist_of` filter Q l.
Proof.
  intros HPQ. induction l as [|x l IH]; [done|]. rewrite !filter_cons.
  destruct (decide (P x)) as [HP|HP].
  - rewrite decide_True by auto. by constructor.
  - case_decide; [by constructor|done].
Qed.

Lemma occurs_longer (k1 k2 before after field : string) :
  k2 = before +:+ k1 +:+ after → occurs k2 field → occurs k1 field.
Proof.
  intros -> (b & a & Heq). rewrite !lower_append in Heq.
  exists (b +:+ lower before), (lower after +:+ a).
  by rewrite Heq, !append_assoc.
Qed.

(** X20: a longer keyword narrows the search: when one keyword contains
    another, the users selected by the longer one are among those
    selected by the shorter one, in the same order. *)
Theorem search_narrows (queryset : list User.t) (k1 k2 before after : string)
    (action : option string) :
  k2 = before +:+ k1 +:+ after →
  (UserViewSet.get_queryset (searching queryset k2 action)).1
  `sublist_of` (UserViewSet.get_queryset (searching queryset k1 action)).1.
Proof.
  intros Hk.
  destruct (get_queryset_result (searching queryset k1 action)) as (-> & _ & _).
  pose proof (get_queryset_sublist (searching queryset k2 action)) as Hsub.
  destruct (get_queryset_result (searching queryset k2 action)) as (-> & _ & _).
  destruct (get_queryset_result (searching queryset k2 action)) as (Heq & _ & _).
  rewrite Heq in Hsub. clear Heq. unfold searching in *.
  cbn [UserViewSet.query_params UserViewSet.queryset] in *.
  rewrite !lookup_singleton_eq in *.
  destruct (decide (k1 ≠ "")) as [Hk1|Hk1]; [|done].
  destruct (decide (k2 ≠ "")) as [Hk2|Hk2].
  - apply filter_sublist_mono. intros u. rewrite !matches_spec.
    pose proof (occurs_longer k1 k2 before after) as Hocc.
    intros [Hm|[Hm|Hm]]; [left|right; left|right; right]; by eapply Hocc.
  - exfalso. apply dec_stable in Hk2. subst k2. apply Hk1.
    destruct before; [|done]. by destruct k1.
Qed.

Lemma search_narrows_witness :
  "alice@" = "" +:+ "alice" +:+ "@"
  ∧ (UserViewSet.get_queryset
       (searching (users fresh_store) "alice@" None)).1
    `sublist_of`
    (UserViewSet.get_queryset (searching (users fresh_store) "alice" None)).1.
Proof.
  assert ("alice@" = "" +:+ "alice" +:+ "@") as Hk by reflexivity.
  split; [exact Hk|].
  apply (search_narrows (users fresh_store) "alice" "alice@" "" "@" None Hk).
Defined.

(** ** Who may call the user views *)

(** X21: a signed-in caller passes the permission check of every action
    of [UserViewSet]; an anonymous caller passes it for the actions
    [create] and [login] and for no other, in particular not when the
    action is unset. *)
Theorem anonymous_may_create_or_login (self : UserViewSet.t) :
  (∀ u, check_permissions (UserViewSet.get_permissions self) (Some u) = true)
  ∧ (check_permissions (UserViewSet.get_permissions self) None = true
     ↔ UserViewSet.action self = Some "create"
       ∨ UserViewSet.action self = Some "login").
Proof.
  unfold UserViewSet.get_permissions.
  case_decide as Haction; set_unfold in Haction; cbn.
  - split; [done|]. split; [|done]. intros _. tauto.
  - split; [done|]. split; [done|]. tauto.
Qed.
